(** * The RAG chatbot API client (chatClient.ts)

    A shallow embedding of [ChatClient] and of the parts of the JavaScript
    platform its four methods go through: JSON values, [JSON.parse],
    [JSON.stringify], the coercions behind [||] and [new Error(..)], and
    [fetch] as an effect on a log of outbound requests. *)

From Stdlib Require Import ZArith List Bool Ascii String Lia DecimalString.
Import ListNotations.
Set Warnings "-register-all".
Local Open Scope string_scope.
Local Open Scope Z_scope.

(** ** Strings *)

(** The double quote character, and a string between double quotes. *)
Definition dquote : ascii := "034"%char.

Definition quoted (s : string) : string :=
  String dquote (s ++ String dquote "").

Definition repeat_char (c : ascii) (n : nat) : string :=
  Nat.iter n (String c) "".

(** [String.prototype.includes]: does [sub] occur inside [s]? *)
Fixpoint includes (s sub : string) : bool :=
  prefix sub s ||
  match s with
  | EmptyString => false
  | String _ s' => includes s' sub
  end.

Definition Z_to_string (z : Z) : string :=
  NilZero.string_of_int (Z.to_int z).

(** ** Errors and completions *)

(** The exceptions that reach the caller: [new Error(message)] thrown by the
    client itself, the [SyntaxError] of [JSON.parse], and the [TypeError] of
    the engine (a property read on [null], an object without a primitive
    value) or of [fetch] (a transport failure).  The text of the last two
    kinds is chosen by the engine. *)
Inductive JsError : Type :=
| Error (message : string)
| SyntaxError (message : string)
| TypeError (message : string).

Definition message_of (e : JsError) : string :=
  match e with
  | Error m | SyntaxError m | TypeError m => m
  end.

(** A completion: an evaluation returns normally or throws. *)
Inductive Completion (A : Type) : Type :=
| Normal (a : A)
| Throw (e : JsError).
Arguments Normal {A} a.
Arguments Throw {A} e.

(** ** Numbers

    A number read from JSON text is kept as the exact decimal value of its
    literal, [mantissa * 10 ^ exponent].  The engine rounds that value to
    binary64: [number_class] decides exactly whether the rounding gives
    zero, a finite value or infinity, and [decimal_binary64] computes the
    finite value, from which [number_to_string] prints.  The sign of a
    zero is not kept. *)
Record Number : Type := mkNumber { mantissa : Z; exponent : Z }.

Inductive NumberClass : Type := IsZero | IsFinite | IsInfinite.

(** Round to nearest, ties to even: a magnitude of at most [2^-1075] becomes
    zero, one of at least [2^1024 - 2^970] becomes infinite. *)
Definition number_class (x : Number) : NumberClass :=
  let m := Z.abs (mantissa x) in
  let e := exponent x in
  if m =? 0 then IsZero
  else if e <? 0 then
    if m * 2 ^ 1075 <=? 10 ^ (- e) then IsZero
    else if (2 ^ 1024 - 2 ^ 970) * 10 ^ (- e) <=? m then IsInfinite
    else IsFinite
  else
    if 2 ^ 1024 - 2 ^ 970 <=? m * 10 ^ e then IsInfinite else IsFinite.

(** *** The binary64 value of a number *)

(** A positive rational [num / den], both positive. *)
Record Ratio : Type := mkRatio { num : Z; den : Z }.

(** [x * b ^ e] for a positive base [b], whatever the sign of [e]. *)
Definition scale (x : Ratio) (b e : Z) : Ratio :=
  if 0 <=? e then mkRatio (num x * b ^ e) (den x)
  else mkRatio (num x) (den x * b ^ (- e)).

(** [1 <= x]. *)
Definition at_least_one (x : Ratio) : bool := den x <=? num x.

Definition ratio_floor (x : Ratio) : Z := num x / den x.

(** Round to the nearest integer, a tie to the even one. *)
Definition round_half_even (x : Ratio) : Z :=
  let q := num x / den x in
  let r := num x mod den x in
  if 2 * r <? den x then q
  else if den x <? 2 * r then q + 1
  else if Z.even q then q else q + 1.

(** The largest [l] with [2 ^ l <= x]. *)
Definition floor_log2 (x : Ratio) : Z :=
  let l := Z.log2 (num x) - Z.log2 (den x) in
  if at_least_one (scale x 2 (- l)) then l else l - 1.

(** The largest [d] with [10 ^ d <= x]. *)
Definition floor_log10 (x : Ratio) : Z :=
  let est := floor_log2 x * 30103 / 100000 in
  if at_least_one (scale x 10 (- (est + 2))) then est + 2
  else if at_least_one (scale x 10 (- (est + 1))) then est + 1
  else if at_least_one (scale x 10 (- est)) then est
  else est - 1.

(** A finite binary64 magnitude [significand * 2 ^ binary_exponent], the
    significand below [2 ^ 53] and, above the subnormal range, at least
    [2 ^ 52]. *)
Record Binary64 : Type := mkBinary64 {
  significand : Z;
  binary_exponent : Z
}.

Definition binary64_eqb (a b : Binary64) : bool :=
  (significand a =? significand b)
  && (binary_exponent a =? binary_exponent b).

Definition binary64_ratio (x : Binary64) : Ratio :=
  scale (mkRatio (significand x) 1) 2 (binary_exponent x).

(** The binary64 value nearest to a positive rational, ties to even. *)
Definition round_binary64 (x : Ratio) : Binary64 :=
  let e := Z.max (floor_log2 x - 52) (- 1074) in
  let m := round_half_even (scale x 2 (- e)) in
  if m =? 2 ^ 53 then mkBinary64 (2 ^ 52) (e + 1) else mkBinary64 m e.

(** The binary64 value of [s * 10 ^ e]. *)
Definition decimal_binary64 (s e : Z) : Binary64 :=
  round_binary64 (scale (mkRatio s 1) 10 e).

(** *** Number::toString

    The digits [s] (there are [k]) and the position [n] of the decimal
    point such that [s * 10 ^ (n - k)] rounds to the binary64 value [x],
    with [k] as small as possible and, among those, [s * 10 ^ (n - k)]
    nearest to [x] (the even [s] on a tie). *)

Record Digits : Type := mkDigits { digits : Z; point : Z }.

(** The two [k]-digit decimals around [x], when they round to [x]. *)
Definition digits_of_length (x : Binary64) (k : Z) : option Digits :=
  let r := binary64_ratio x in
  let n := floor_log10 r + 1 in
  let t := scale r 10 (k - n) in
  let lo := ratio_floor t in
  let hi := lo + 1 in
  let below := mkDigits lo n in
  let above :=
    if hi <? 10 ^ k then mkDigits hi n else mkDigits (10 ^ (k - 1)) (n + 1) in
  let reads (d : Digits) :=
    binary64_eqb (decimal_binary64 (digits d) (point d - k)) x in
  let dlo := num t - lo * den t in
  let dhi := hi * den t - num t in
  match reads below, reads above with
  | true, true =>
      if dlo <? dhi then Some below
      else if dhi <? dlo then Some above
      else if Z.even lo then Some below else Some above
  | true, false => Some below
  | false, true => Some above
  | false, false => None
  end.

Fixpoint shortest_digits (x : Binary64) (k : Z) (more : nat)
  : Digits * Z :=
  match digits_of_length x k with
  | Some d => (d, k)
  | None =>
      match more with
      | O =>
          let r := binary64_ratio x in
          (mkDigits (ratio_floor (scale r 10 (k - (floor_log10 r + 1))))
                    (floor_log10 r + 1), k)
      | S more' => shortest_digits x (k + 1) more'
      end
  end.

(** [Number::toString] (radix 10) on a finite non-zero magnitude with digits
    [s] ([k] of them) and decimal point after the [n]-th digit. *)
Definition format_digits (s : string) (k n : Z) : string :=
  if (k <=? n) && (n <=? 21) then
    s ++ repeat_char "0" (Z.to_nat (n - k))
  else if (0 <? n) && (n <=? 21) then
    substring 0 (Z.to_nat n) s ++ "." ++
    substring (Z.to_nat n) (Z.to_nat (k - n)) s
  else if (-6 <? n) && (n <=? 0) then
    "0." ++ repeat_char "0" (Z.to_nat (- n)) ++ s
  else
    let e := n - 1 in
    let es := (if e <? 0 then "-" else "+") ++ Z_to_string (Z.abs e) in
    if k =? 1 then s ++ "e" ++ es
    else substring 0 1 s ++ "." ++ substring 1 (Z.to_nat (k - 1)) s
         ++ "e" ++ es.

(** [Number::toString] (radix 10). *)
Definition number_to_string (x : Number) : string :=
  match number_class x with
  | IsZero => "0"
  | IsInfinite => if mantissa x <? 0 then "-Infinity" else "Infinity"
  | IsFinite =>
      let v := decimal_binary64 (Z.abs (mantissa x)) (exponent x) in
      let (d, k) := shortest_digits v 1 16 in
      (if mantissa x <? 0 then "-" else "")
      ++ format_digits (Z_to_string (digits d)) k (point d)
  end.

(** ** JavaScript values

    The values [JSON.parse] can build and [JSON.stringify] can print, plus
    [undefined].  An object is the list of its own properties in insertion
    order (the client never enumerates a parsed object, so the engine's
    integer-keys-first enumeration order is not modelled). *)
Inductive JSValue : Type :=
| JUndefined
| JNull
| JBool (b : bool)
| JNumber (n : Number)
| JString (s : string)
| JArray (items : list JSValue)
| JObject (props : list (string * JSValue)).

Fixpoint lookup (name : string) (props : list (string * JSValue))
  : option JSValue :=
  match props with
  | [] => None
  | (k, v) :: rest => if String.eqb k name then Some v else lookup name rest
  end.

(** [CreateDataProperty]: an existing key keeps its place and takes the new
    value, a new key goes last. *)
Fixpoint set_prop (props : list (string * JSValue)) (name : string)
  (v : JSValue) : list (string * JSValue) :=
  match props with
  | [] => [(name, v)]
  | (k, w) :: rest =>
      if String.eqb k name then (k, v) :: rest
      else (k, w) :: set_prop rest name v
  end.

(** [ToBoolean]. *)
Definition truthy (v : JSValue) : bool :=
  match v with
  | JUndefined | JNull => false
  | JBool b => b
  | JNumber n => match number_class n with IsZero => false | _ => true end
  | JString s => negb (String.eqb s "")
  | JArray _ | JObject _ => true
  end.

(** [a || b]. *)
Definition js_or (a b : JSValue) : JSValue :=
  if truthy a then a else b.

(** Property read [v.name], for a [name] that no built-in prototype defines
    and that is neither an array index nor ["length"] (["detail"] and
    ["source_chunks"] are such names): the own property of an object,
    [undefined] on any other value, and a [TypeError] on [null] and
    [undefined]. *)
Definition get_prop (v : JSValue) (name : string) : Completion JSValue :=
  match v with
  | JUndefined =>
      Throw (TypeError ("Cannot read properties of undefined (reading '"
                        ++ name ++ "')"))
  | JNull =>
      Throw (TypeError ("Cannot read properties of null (reading '"
                        ++ name ++ "')"))
  | JObject props =>
      match lookup name props with
      | Some w => Normal w
      | None => Normal JUndefined
      end
  | _ => Normal JUndefined
  end.

(** [ToString].  An array prints its elements separated by commas, [null]
    and [undefined] elements as nothing.  An object prints as
    ["[object Object]"] through [Object.prototype.toString]; when it has an
    own property ["toString"] (never callable in a value read from JSON) the
    conversion finds no primitive and throws. *)
Fixpoint to_string (v : JSValue) : Completion string :=
  match v with
  | JUndefined => Normal "undefined"
  | JNull => Normal "null"
  | JBool true => Normal "true"
  | JBool false => Normal "false"
  | JNumber n => Normal (number_to_string n)
  | JString s => Normal s
  | JArray items =>
      (fix join (first : bool) (l : list JSValue) : Completion string :=
         match l with
         | [] => Normal ""
         | x :: l' =>
             let sep := if first then "" else "," in
             let here :=
               match x with
               | JUndefined | JNull => Normal ""
               | _ => to_string x
               end in
             match here with
             | Throw e => Throw e
             | Normal sx =>
                 match join false l' with
                 | Throw e => Throw e
                 | Normal sl => Normal (sep ++ sx ++ sl)
                 end
             end
         end) true items
  | JObject props =>
      match lookup "toString" props with
      | Some _ => Throw (TypeError "Cannot convert object to primitive value")
      | None => Normal "[object Object]"
      end
  end.

(** [new Error(message)]: the message is the argument converted to a string,
    and the empty string when the argument is [undefined]. *)
Definition new_Error (message : JSValue) : Completion JsError :=
  match message with
  | JUndefined => Normal (Error "")
  | _ =>
      match to_string message with
      | Normal s => Normal (Error s)
      | Throw e => Throw e
      end
  end.

(** ** JSON.parse

    A recursive-descent reader of the JSON grammar (ECMA-404).  Nested
    values are read with a fuel that [JSON_parse] sets from the length of
    the text; [parse_value_fuel] below shows it never runs out. *)

Inductive ParseResult (A : Type) : Type :=
| Parsed (a : A) (rest : string)
| Malformed (rest : string)
| OutOfFuel.
Arguments Parsed {A} a rest.
Arguments Malformed {A} rest.
Arguments OutOfFuel {A}.

Definition is_ws (c : ascii) : bool :=
  Ascii.eqb c " " || Ascii.eqb c "009" || Ascii.eqb c "010"
  || Ascii.eqb c "013".

Fixpoint skip_ws (s : string) : string :=
  match s with
  | String c s' => if is_ws c then skip_ws s' else s
  | EmptyString => s
  end.

Fixpoint strip_prefix (p s : string) : option string :=
  match p with
  | EmptyString => Some s
  | String a p' =>
      match s with
      | String b s' => if Ascii.eqb a b then strip_prefix p' s' else None
      | EmptyString => None
      end
  end.

Definition is_digit (c : ascii) : bool :=
  (48 <=? Z.of_N (N_of_ascii c)) && (Z.of_N (N_of_ascii c) <=? 57).

Fixpoint take_digits (s : string) : string * string :=
  match s with
  | String c s' =>
      if is_digit c then
        let (d, r) := take_digits s' in (String c d, r)
      else ("", s)
  | EmptyString => ("", "")
  end.

Fixpoint digits_value (acc : Z) (s : string) : Z :=
  match s with
  | EmptyString => acc
  | String c s' => digits_value (10 * acc + (Z.of_N (N_of_ascii c) - 48)) s'
  end.

(** The integer part of a number: a single [0], or digits that do not start
    with [0]. *)
Definition take_int (s : string) : string * string :=
  match s with
  | String c s' => if Ascii.eqb c "0" then ("0", s') else take_digits s
  | EmptyString => ("", "")
  end.

Definition take_frac (s : string) : option (string * string) :=
  match s with
  | String c s' =>
      if Ascii.eqb c "." then
        let (d, r) := take_digits s' in
        if String.eqb d "" then None else Some (d, r)
      else Some ("", s)
  | EmptyString => Some ("", s)
  end.

Definition take_exp (s : string) : option (Z * string) :=
  match s with
  | String c s' =>
      if Ascii.eqb c "e" || Ascii.eqb c "E" then
        let (neg, s1) :=
          match s' with
          | String g s'' =>
              if Ascii.eqb g "-" then (true, s'')
              else if Ascii.eqb g "+" then (false, s'')
              else (false, s')
          | EmptyString => (false, s')
          end in
        let (d, r) := take_digits s1 in
        if String.eqb d "" then None
        else Some (if neg then - digits_value 0 d else digits_value 0 d, r)
      else Some (0, s)
  | EmptyString => Some (0, s)
  end.

Definition parse_number (s : string) : ParseResult Number :=
  let (neg, s1) :=
    match s with
    | String c s' => if Ascii.eqb c "-" then (true, s') else (false, s)
    | EmptyString => (false, s)
    end in
  let (ip, s2) := take_int s1 in
  if String.eqb ip "" then Malformed s1
  else
    match take_frac s2 with
    | None => Malformed s2
    | Some (fp, s3) =>
        match take_exp s3 with
        | None => Malformed s3
        | Some (e, s4) =>
            let m := digits_value 0 (ip ++ fp) in
            Parsed (mkNumber (if neg then - m else m)
                             (e - Z.of_nat (String.length fp))) s4
        end
    end.

(** *** String literals

    A JavaScript string is kept as its UTF-8 bytes.  A [\uXXXX] escape gives
    a UTF-16 code unit; a high surrogate followed by a low one is a single
    code point, and a lone surrogate is written in the three-byte form. *)

Inductive StrPiece : Type :=
| Raw (c : ascii)
| Unit16 (u : N).

Definition hex_digit (c : ascii) : option N :=
  let n := N_of_ascii c in
  if ((48 <=? n) && (n <=? 57))%N then Some (n - 48)%N
  else if ((97 <=? n) && (n <=? 102))%N then Some (n - 87)%N
  else if ((65 <=? n) && (n <=? 70))%N then Some (n - 55)%N
  else None.

Definition hex4 (a b c d : ascii) : option N :=
  match hex_digit a, hex_digit b, hex_digit c, hex_digit d with
  | Some x, Some y, Some z, Some w =>
      Some (((x * 16 + y) * 16 + z) * 16 + w)%N
  | _, _, _, _ => None
  end.

Definition simple_escape (c : ascii) : option ascii :=
  if Ascii.eqb c dquote then Some dquote
  else if Ascii.eqb c "\" then Some "\"%char
  else if Ascii.eqb c "/" then Some "/"%char
  else if Ascii.eqb c "b" then Some "008"%char
  else if Ascii.eqb c "f" then Some "012"%char
  else if Ascii.eqb c "n" then Some "010"%char
  else if Ascii.eqb c "r" then Some "013"%char
  else if Ascii.eqb c "t" then Some "009"%char
  else None.

(** The characters of a string literal after its opening quote, up to and
    including the closing quote. *)
Fixpoint parse_chars (acc : list StrPiece) (s : string)
  : ParseResult (list StrPiece) :=
  match s with
  | EmptyString => Malformed s
  | String c s1 =>
      if Ascii.eqb c dquote then Parsed (rev acc) s1
      else if Ascii.eqb c "\" then
        match s1 with
        | EmptyString => Malformed s1
        | String e s2 =>
            if Ascii.eqb e "u" then
              match s2 with
              | String h1 (String h2 (String h3 (String h4 s3))) =>
                  match hex4 h1 h2 h3 h4 with
                  | Some u => parse_chars (Unit16 u :: acc) s3
                  | None => Malformed s2
                  end
              | _ => Malformed s2
              end
            else
              match simple_escape e with
              | Some x => parse_chars (Raw x :: acc) s2
              | None => Malformed s1
              end
        end
      else if (N_of_ascii c <? 32)%N then Malformed s
      else parse_chars (Raw c :: acc) s1
  end.

Definition utf8 (cp : N) : string :=
  let byte (n : N) := String (ascii_of_N n) "" in
  let cont (n : N) := byte (128 + N.land n 63)%N in
  (if cp <? 128 then byte cp
   else if cp <? 2048 then byte (192 + N.shiftr cp 6) ++ cont cp
   else if cp <? 65536 then
     byte (224 + N.shiftr cp 12) ++ cont (N.shiftr cp 6) ++ cont cp
   else
     byte (240 + N.shiftr cp 18) ++ cont (N.shiftr cp 12)
     ++ cont (N.shiftr cp 6) ++ cont cp)%N.

Definition is_high_surrogate (u : N) : bool :=
  ((55296 <=? u) && (u <=? 56319))%N.

Definition is_low_surrogate (u : N) : bool :=
  ((56320 <=? u) && (u <=? 57343))%N.

Fixpoint encode_pieces (l : list StrPiece) : string :=
  match l with
  | [] => ""
  | Raw c :: l' => String c (encode_pieces l')
  | Unit16 u :: l' =>
      match l' with
      | Unit16 w :: l'' =>
          if is_high_surrogate u && is_low_surrogate w then
            utf8 (65536 + (u - 55296) * 1024 + (w - 56320))%N
            ++ encode_pieces l''
          else utf8 u ++ encode_pieces l'
      | _ => utf8 u ++ encode_pieces l'
      end
  end.

Definition parse_string (s : string) : ParseResult string :=
  match parse_chars [] s with
  | Parsed l rest => Parsed (encode_pieces l) rest
  | Malformed r => Malformed r
  | OutOfFuel => OutOfFuel
  end.

(** *** Values *)

Definition starts_number (c : ascii) : bool :=
  Ascii.eqb c "-" || is_digit c.

Definition parse_literal (s : string) : ParseResult JSValue :=
  match strip_prefix "true" s with
  | Some r => Parsed (JBool true) r
  | None =>
      match strip_prefix "false" s with
      | Some r => Parsed (JBool false) r
      | None =>
          match strip_prefix "null" s with
          | Some r => Parsed JNull r
          | None => Malformed s
          end
      end
  end.

Fixpoint parse_value (fuel : nat) (s : string) : ParseResult JSValue :=
  match fuel with
  | O => OutOfFuel
  | S fuel' =>
      match skip_ws s with
      | EmptyString => Malformed ""
      | String c s1 as s0 =>
          if Ascii.eqb c "{" then
            match skip_ws s1 with
            | EmptyString => Malformed ""
            | String d s2 as s1' =>
                if Ascii.eqb d "}" then Parsed (JObject []) s2
                else
                  match parse_members fuel' [] s1' with
                  | Parsed props r => Parsed (JObject props) r
                  | Malformed r => Malformed r
                  | OutOfFuel => OutOfFuel
                  end
            end
          else if Ascii.eqb c "[" then
            match skip_ws s1 with
            | EmptyString => Malformed ""
            | String d s2 as s1' =>
                if Ascii.eqb d "]" then Parsed (JArray []) s2
                else
                  match parse_elements fuel' [] s1' with
                  | Parsed items r => Parsed (JArray items) r
                  | Malformed r => Malformed r
                  | OutOfFuel => OutOfFuel
                  end
            end
          else if Ascii.eqb c dquote then
            match parse_string s1 with
            | Parsed str r => Parsed (JString str) r
            | Malformed r => Malformed r
            | OutOfFuel => OutOfFuel
            end
          else if starts_number c then
            match parse_number s0 with
            | Parsed n r => Parsed (JNumber n) r
            | Malformed r => Malformed r
            | OutOfFuel => OutOfFuel
            end
          else parse_literal s0
      end
  end

with parse_elements (fuel : nat) (acc : list JSValue) (s : string)
  : ParseResult (list JSValue) :=
  match fuel with
  | O => OutOfFuel
  | S fuel' =>
      match parse_value fuel' s with
      | Parsed v r =>
          match skip_ws r with
          | EmptyString => Malformed ""
          | String c r1 as r0 =>
              if Ascii.eqb c "," then parse_elements fuel' (v :: acc) r1
              else if Ascii.eqb c "]" then Parsed (rev (v :: acc)) r1
              else Malformed r0
          end
      | Malformed r => Malformed r
      | OutOfFuel => OutOfFuel
      end
  end

with parse_members (fuel : nat) (acc : list (string * JSValue)) (s : string)
  : ParseResult (list (string * JSValue)) :=
  match fuel with
  | O => OutOfFuel
  | S fuel' =>
      match skip_ws s with
      | EmptyString => Malformed ""
      | String q s1 as s0 =>
          if Ascii.eqb q dquote then
            match parse_string s1 with
            | Parsed key r =>
                match skip_ws r with
                | EmptyString => Malformed ""
                | String c r1 as r0 =>
                    if Ascii.eqb c ":" then
                      match parse_value fuel' r1 with
                      | Parsed v r2 =>
                          match skip_ws r2 with
                          | EmptyString => Malformed ""
                          | String d r3 as r2' =>
                              if Ascii.eqb d "," then
                                parse_members fuel' (set_prop acc key v) r3
                              else if Ascii.eqb d "}" then
                                Parsed (set_prop acc key v) r3
                              else Malformed r2'
                          end
                      | Malformed r' => Malformed r'
                      | OutOfFuel => OutOfFuel
                      end
                    else Malformed r0
                end
            | Malformed r => Malformed r
            | OutOfFuel => OutOfFuel
            end
          else Malformed s0
      end
  end.

(** The message of the [SyntaxError].  The wording is the engine's own and
    changes with its version (this is the wording of V8 up to Node 18;
    later versions quote the text instead of giving a position): the
    theorems below leave the message open. *)
Definition syntax_error (text rest : string) : JsError :=
  match rest with
  | EmptyString => SyntaxError "Unexpected end of JSON input"
  | String c _ =>
      SyntaxError
        ("Unexpected token " ++ String c "" ++ " in JSON at position "
         ++ Z_to_string (Z.of_nat (String.length text - String.length rest)))
  end.

Definition parse_fuel (text : string) : nat :=
  S (2 * String.length text).

(** [JSON.parse(text)]. *)
Definition JSON_parse (text : string) : Completion JSValue :=
  match parse_value (parse_fuel text) text with
  | Parsed v rest =>
      match skip_ws rest with
      | EmptyString => Normal v
      | r => Throw (syntax_error text r)
      end
  | Malformed r => Throw (syntax_error text r)
  | OutOfFuel => Throw (SyntaxError "Unexpected end of JSON input")
  end.

(** ** JSON.stringify *)

Definition hex_char (n : N) : ascii :=
  match String.get (N.to_nat n) "0123456789abcdef" with
  | Some c => c
  | None => "0"%char
  end.

(** [QuoteJSONString] on one character of well-formed text.  A lone
    surrogate, which only the reader of [\u] escapes produces (in its
    three-byte form), is left as it is here, where the engine writes it
    back as a [\u] escape: the strings of a request are taken to be
    well-formed text. *)
Definition quote_char (c : ascii) : string :=
  let n := N_of_ascii c in
  if Ascii.eqb c dquote then String "\" (String dquote "")
  else if Ascii.eqb c "\" then "\\"
  else if Ascii.eqb c "008" then "\b"
  else if Ascii.eqb c "012" then "\f"
  else if Ascii.eqb c "010" then "\n"
  else if Ascii.eqb c "013" then "\r"
  else if Ascii.eqb c "009" then "\t"
  else if (n <? 32)%N then
    "\u00" ++ String (hex_char (n / 16)) (String (hex_char (n mod 16)) "")
  else String c "".

Fixpoint quote_chars (s : string) : string :=
  match s with
  | EmptyString => ""
  | String c s' => quote_char c ++ quote_chars s'
  end.

Definition quote_json_string (s : string) : string :=
  quoted (quote_chars s).

(** [SerializeJSONProperty] without indentation.  [None] stands for the
    result [undefined]: such a property is left out of an object, and such
    an element of an array is printed as [null]. *)
Fixpoint serialize (v : JSValue) : option string :=
  match v with
  | JUndefined => None
  | JNull => Some "null"
  | JBool true => Some "true"
  | JBool false => Some "false"
  | JNumber n =>
      match number_class n with
      | IsInfinite => Some "null"
      | _ => Some (number_to_string n)
      end
  | JString s => Some (quote_json_string s)
  | JArray items =>
      Some ("[" ++
        (fix elements (first : bool) (l : list JSValue) : string :=
           match l with
           | [] => ""
           | x :: l' =>
               (if first then "" else ",")
               ++ match serialize x with Some t => t | None => "null" end
               ++ elements false l'
           end) true items
        ++ "]")
  | JObject props =>
      Some ("{" ++
        (fix members (first : bool) (l : list (string * JSValue)) : string :=
           match l with
           | [] => ""
           | (k, x) :: l' =>
               match serialize x with
               | None => members first l'
               | Some t =>
                   (if first then "" else ",")
                   ++ quote_json_string k ++ ":" ++ t ++ members false l'
               end
           end) true props
        ++ "}")
  end.

(** [JSON.stringify(value)]: a string, or [undefined] ([None]). *)
Definition JSON_stringify (value : JSValue) : option string :=
  serialize value.

(** ** The network

    [fetch] is the only effect of the client.  The world is the list of the
    requests sent so far; the network answers a request, given that
    history, with a response or with a rejection (a transport failure). *)

Record Request : Type := mkRequest {
  url : string;
  method : string;
  headers : list (string * string);
  body : option string
}.

(** What the client reads of a [Response]: [status], [statusText], and the
    text of the body (through [json()]).  The response is one that has
    arrived in full, and [body_text] is its decoded text: a body whose
    stream breaks or fails to decode after the headers, where [json()]
    rejects with a [TypeError] of the platform, is outside this record. *)
Record Response : Type := mkResponse {
  status : Z;
  statusText : string;
  body_text : string
}.

(** [response.ok]: the status is in the range 200-299. *)
Definition ok (r : Response) : bool :=
  (200 <=? status r) && (status r <=? 299).

Definition Network : Type := list Request -> Request -> Completion Response.

(** An asynchronous computation: it runs against a network from a log of
    sent requests, and settles (fulfilled or rejected) with a new log. *)
Definition Async (A : Type) : Type :=
  Network -> list Request -> list Request * Completion A.

Definition ret {A : Type} (a : A) : Async A :=
  fun _ log => (log, Normal a).

Definition throw {A : Type} (e : JsError) : Async A :=
  fun _ log => (log, Throw e).

Definition bind {A B : Type} (m : Async A) (k : A -> Async B) : Async B :=
  fun net log =>
    match m net log with
    | (log', Normal a) => k a net log'
    | (log', Throw e) => (log', Throw e)
    end.

Definition lift {A : Type} (c : Completion A) : Async A :=
  fun _ log => (log, c).

Notation "x <- m ;; k" := (bind m (fun x => k))
  (at level 61, m at next level, right associativity).

(** [fetch(url, init)]: one request goes out, and the promise settles with
    the network's answer. *)
Definition fetch (req : Request) : Async Response :=
  fun net log => ((log ++ [req])%list, net log req).

(** [response.json()] on a body that has arrived in full: the parse of its
    text. *)
Definition json (r : Response) : Async JSValue :=
  lift (JSON_parse (body_text r)).

(** [throw new Error(message)]. *)
Definition throw_new_Error {A : Type} (message : JSValue) : Async A :=
  match new_Error message with
  | Normal e => throw e
  | Throw e => throw e
  end.

(** ** Request and response records of the API *)

(** An optional, nullable property [p?: T | null]: left out (or
    [undefined]), [null], or a value. *)
Inductive Nullable (A : Type) : Type :=
| Omitted
| Null
| Given (a : A).
Arguments Omitted {A}.
Arguments Null {A}.
Arguments Given {A} a.

Definition nullable_string (x : Nullable string) : JSValue :=
  match x with
  | Omitted => JUndefined
  | Null => JNull
  | Given s => JString s
  end.

Inductive Mode : Type := full_book | selection.

Definition mode_string (m : Mode) : string :=
  match m with
  | full_book => "full_book"
  | selection => "selection"
  end.

Record ChatQueryRequest : Type := {
  query_text : string;
  mode : Mode;
  selected_text : Nullable string;
  session_id : Nullable string
}.

Inductive Rating : Type := positive | negative.

Definition rating_string (r : Rating) : string :=
  match r with
  | positive => "positive"
  | negative => "negative"
  end.

Record FeedbackRequest : Type := {
  response_id : string;
  rating : Rating;
  feedback_text : Nullable string
}.

(** The objects behind the typed requests, with their properties in the
    order of the interface (a caller's literal may order them otherwise,
    which only permutes the members of the body). *)
Definition ChatQueryRequest_value (r : ChatQueryRequest) : JSValue :=
  JObject [("query_text", JString (query_text r));
           ("mode", JString (mode_string (mode r)));
           ("selected_text", nullable_string (selected_text r));
           ("session_id", nullable_string (session_id r))].

Definition FeedbackRequest_value (r : FeedbackRequest) : JSValue :=
  JObject [("response_id", JString (response_id r));
           ("rating", JString (rating_string (rating r)));
           ("feedback_text", nullable_string (feedback_text r))].

(** ** ChatClient *)

(** [API_BASE_URL], from [process.env.NODE_ENV]. *)
Definition API_BASE_URL (NODE_ENV : option string) : string :=
  match NODE_ENV with
  | Some env =>
      if String.eqb env "production"
      then "https://rag-chatbot-api-lr57.onrender.com"
      else "http://localhost:8000"
  | None => "http://localhost:8000"
  end.

Record ChatClient : Type := { baseUrl : string }.

(** [new ChatClient(baseUrl)], the argument defaulting to [API_BASE_URL]. *)
Definition new_ChatClient (NODE_ENV : option string) (url : option string)
  : ChatClient :=
  {| baseUrl := match url with
                | Some u => u
                | None => API_BASE_URL NODE_ENV
                end |}.

(** The singleton instance. *)
Definition chatClient (NODE_ENV : option string) : ChatClient :=
  new_ChatClient NODE_ENV None.

Definition json_headers : list (string * string) :=
  [("Content-Type", "application/json")].

Definition post_request (target : string) (payload : JSValue) : Request :=
  {| url := target;
     method := "POST";
     headers := json_headers;
     body := JSON_stringify payload |}.

(** [fetch(url)] without options is a GET without headers or body. *)
Definition get_request (target : string) : Request :=
  {| url := target; method := "GET"; headers := []; body := None |}.

Definition session_request (this : ChatClient)
  (userIdentifier : option string) : Request :=
  post_request (baseUrl this ++ "/api/session")
       (JObject [("user_identifier",
                  match userIdentifier with
                  | Some s => JString s
                  | None => JUndefined
                  end)]).

Definition chat_request (this : ChatClient) (request : ChatQueryRequest)
  : Request :=
  post_request (baseUrl this ++ "/api/chat") (ChatQueryRequest_value request).

Definition feedback_request (this : ChatClient) (request : FeedbackRequest)
  : Request :=
  post_request (baseUrl this ++ "/api/feedback")
               (FeedbackRequest_value request).

Definition health_request (this : ChatClient) : Request :=
  get_request (baseUrl this ++ "/api/health").

(** Create a new chat session. *)
Definition createSession (this : ChatClient) (userIdentifier : option string)
  : Async JSValue :=
  response <- fetch (session_request this userIdentifier) ;;
  if negb (ok response) then
    throw_new_Error
      (JString ("Failed to create session: " ++ statusText response))
  else
    json response.

(** Send a chat query and get the response. *)
Definition sendQuery (this : ChatClient) (request : ChatQueryRequest)
  : Async JSValue :=
  response <- fetch (chat_request this request) ;;
  if negb (ok response) then
    if status response =? 429 then
      throw_new_Error
        (JString "Rate limit exceeded. Please wait a moment and try again.")
    else if status response =? 400 then
      error <- json response ;;
      detail <- lift (get_prop error "detail") ;;
      throw_new_Error (js_or detail (JString "Invalid request"))
    else
      throw_new_Error
        (JString ("Failed to send query: " ++ statusText response))
  else
    json response.

(** Submit feedback for a response. *)
Definition submitFeedback (this : ChatClient) (request : FeedbackRequest)
  : Async unit :=
  response <- fetch (feedback_request this request) ;;
  if negb (ok response) then
    if status response =? 409 then
      throw_new_Error (JString "Feedback already submitted for this response")
    else
      throw_new_Error
        (JString ("Failed to submit feedback: " ++ statusText response))
  else
    ret tt.

(** Check the health of the API. *)
Definition healthCheck (this : ChatClient) : Async JSValue :=
  response <- fetch (health_request this) ;;
  if negb (ok response) then
    throw_new_Error (JString "API health check failed")
  else
    json response.

(** ** Vocabulary of the properties *)

(** The completion fails with an error whose message contains [text]. *)
Definition message_contains {A : Type} (c : Completion A) (text : string)
  : Prop :=
  exists e, c = Throw e /\ includes (message_of e) text = true.

(** [v] is an object with an own property [name]. *)
Definition has_property (v : JSValue) (name : string) : bool :=
  match v with
  | JObject props =>
      match lookup name props with
      | Some _ => true
      | None => false
      end
  | _ => false
  end.

(** The [source_chunks] array of a chat response. *)
Definition source_chunks (v : JSValue) : option (list JSValue) :=
  match get_prop v "source_chunks" with
  | Normal (JArray chunks) => Some chunks
  | _ => None
  end.

(** A network that gives the same answer to every request, and one that
    fails every request before any response. *)
Definition answering (resp : Response) : Network :=
  fun _ _ => Normal resp.

Definition failing (e : JsError) : Network :=
  fun _ _ => Throw e.

(** Sample inputs. *)
Definition local_client : ChatClient := chatClient None.

Definition sample_query : ChatQueryRequest :=
  {| query_text := "What is a humanoid robot?";
     mode := full_book;
     selected_text := Null;
     session_id := Omitted |}.

Definition sample_feedback : FeedbackRequest :=
  {| response_id := "r-1"; rating := positive; feedback_text := Omitted |}.

Definition member (k v : string) : string := quoted k ++ ":" ++ v.

Definition health_body : string :=
  "{" ++ member "status" (quoted "ok") ++ ","
      ++ member "version" (quoted "1.2.3") ++ "}".

Definition health_object : JSValue :=
  JObject [("status", JString "ok"); ("version", JString "1.2.3")].

(** A chat response whose chunks do not come in the order of their
    scores. *)
Definition chat_body : string :=
  "{" ++ member "response_id" (quoted "r-1") ++ ","
      ++ member "source_chunks"
           ("[{" ++ member "chunk_id" (quoted "c7") ++ ","
                 ++ member "score" "0.25" ++ "},{"
                 ++ member "chunk_id" (quoted "c2") ++ ","
                 ++ member "score" "0.9" ++ "}]")
      ++ "}".

Definition chat_chunks : list JSValue :=
  [JObject [("chunk_id", JString "c7");
            ("score", JNumber (mkNumber 25 (-2)))];
   JObject [("chunk_id", JString "c2");
            ("score", JNumber (mkNumber 9 (-1)))]].

Definition detail_body (detail : string) : string :=
  "{" ++ member "detail" detail ++ "}".

Definition server_error : Response :=
  mkResponse 500 "Internal Server Error" "".

Definition bad_request (text : string) : Response :=
  mkResponse 400 "Bad Request" text.

(** ** Vocabulary of the request bodies *)

(** The properties [JSON.stringify] prints: those that are not
    [undefined]. *)
Definition is_defined (v : JSValue) : bool :=
  match v with
  | JUndefined => false
  | _ => true
  end.

Definition defined_props (props : list (string * JSValue))
  : list (string * JSValue) :=
  filter (fun kv => is_defined (snd kv)) props.

(** A value that is a string, [null] or [undefined], as the properties
    of the three request objects are. *)
Definition is_flat (v : JSValue) : bool :=
  match v with
  | JUndefined | JNull | JString _ => true
  | _ => false
  end.

(** What the reader finds for a character written by [quote_char]: the
    character itself, or the code unit of a [\u] escape. *)
Definition piece_of (c : ascii) : StrPiece :=
  match quote_char c with
  | String _ (String u _) =>
      if Ascii.eqb u "u" then Unit16 (N_of_ascii c) else Raw c
  | _ => Raw c
  end.

Definition string_pieces (s : string) : list StrPiece :=
  map piece_of (list_ascii_of_string s).

(** The text of a serialized object, member by member. *)
Definition value_text (v : JSValue) : string :=
  match serialize v with
  | Some t => t
  | None => "null"
  end.

Fixpoint tail_text (ds : list (string * JSValue)) : string :=
  match ds with
  | [] => ""
  | (k, v) :: ds' =>
      "," ++ quote_json_string k ++ ":" ++ value_text v ++ tail_text ds'
  end.

Definition members_text (ds : list (string * JSValue)) : string :=
  match ds with
  | [] => ""
  | (k, v) :: ds' =>
      quote_json_string k ++ ":" ++ value_text v ++ tail_text ds'
  end.

Definition object_props (v : JSValue) : list (string * JSValue) :=
  match v with
  | JObject props => props
  | _ => []
  end.

(** The properties the reader builds from members read in order. *)
Definition set_props (acc ds : list (string * JSValue))
  : list (string * JSValue) :=
  fold_left (fun a kv => set_prop a (fst kv) (snd kv)) ds acc.

(** A member the reader is shown to read back. *)
Definition printable (kv : string * JSValue) : Prop :=
  is_flat (snd kv) = true /\ is_defined (snd kv) = true.

(** * Properties *)

(** ** The models on concrete inputs *)

Example parse_health_body : JSON_parse health_body = Normal health_object.
Proof. reflexivity. Qed.

Example parse_keeps_array_order :
  JSON_parse "[3, 1, 2]"
  = Normal (JArray [JNumber (mkNumber 3 0); JNumber (mkNumber 1 0);
                    JNumber (mkNumber 2 0)]).
Proof. reflexivity. Qed.

Example parse_last_duplicate_wins :
  JSON_parse ("{" ++ member "a" "1" ++ "," ++ member "b" "true" ++ ","
                  ++ member "a" "null" ++ "}")
  = Normal (JObject [("a", JNull); ("b", JBool true)]).
Proof. reflexivity. Qed.

Example parse_rejects_trailing_comma :
  JSON_parse "[1,]"
  = Throw (SyntaxError "Unexpected token ] in JSON at position 3").
Proof. reflexivity. Qed.

Example parse_rejects_empty_text :
  JSON_parse "" = Throw (SyntaxError "Unexpected end of JSON input").
Proof. reflexivity. Qed.

Example number_strings :
  map number_to_string
      [mkNumber 100 0; mkNumber 5 (-1); mkNumber (-1230) (-7);
       mkNumber 1 21; mkNumber 15 (-8); mkNumber 1 400; mkNumber 2 (-324)]
  = ["100"; "0.5"; "-0.000123"; "1e+21"; "1.5e-7"; "Infinity"; "0"].
Proof. vm_compute. reflexivity. Qed.

Example number_strings_rounded :
  map number_to_string
      [mkNumber 12345678901234567890 0; mkNumber 9007199254740993 0;
       mkNumber 4 (-324); mkNumber 30000000000000004 (-17);
       mkNumber 1 (-1); mkNumber 17976931348623157 292;
       mkNumber 123456789012345678 4]
  = ["12345678901234567000"; "9007199254740992"; "5e-324";
     "0.30000000000000004"; "0.1"; "1.7976931348623157e+308";
     "1.2345678901234568e+21"].
Proof. vm_compute. reflexivity. Qed.

Example falsy_values :
  map truthy [JUndefined; JNull; JBool false; JString "";
              JNumber (mkNumber 0 3); JNumber (mkNumber 1 (-400))]
  = [false; false; false; false; false; false].
Proof. vm_compute. reflexivity. Qed.

Example truthy_values :
  map truthy [JBool true; JString "0"; JNumber (mkNumber 5 (-324));
              JArray []; JObject []]
  = [true; true; true; true; true].
Proof. vm_compute. reflexivity. Qed.

Example stringify_drops_undefined :
  JSON_stringify
    (JObject [("a", JUndefined); ("b", JArray [JUndefined; JNull]);
              ("c", JString "x\y")])
  = Some ("{" ++ member "b" "[null,null]" ++ ","
              ++ member "c" (quoted "x\\y") ++ "}").
Proof. reflexivity. Qed.

Example chat_request_body :
  option_map JSON_parse (body (chat_request local_client sample_query))
  = Some (Normal
            (JObject [("query_text", JString "What is a humanoid robot?");
                      ("mode", JString "full_book");
                      ("selected_text", JNull)])).
Proof. reflexivity. Qed.

Example transport_failure :
  healthCheck local_client (failing (TypeError "Failed to fetch")) []
  = ([health_request local_client], Throw (TypeError "Failed to fetch")).
Proof. reflexivity. Qed.

(** ** The reader always has enough fuel *)

Section ParserFuel.

Local Open Scope nat_scope.

Lemma skip_ws_length (s : string) :
  String.length (skip_ws s) <= String.length s.
Proof.
  induction s as [|c s IH]; simpl; [lia|].
  destruct (is_ws c); simpl; lia.
Qed.

Lemma strip_prefix_length (p s r : string) :
  strip_prefix p s = Some r ->
  String.length s = String.length p + String.length r.
Proof.
  revert s; induction p as [|a p IH]; intros s H; simpl in *.
  - now inversion H.
  - destruct s as [|b s]; [discriminate|].
    destruct (Ascii.eqb a b); [|discriminate].
    simpl; rewrite (IH _ H); lia.
Qed.

Lemma take_digits_length (s d r : string) :
  take_digits s = (d, r) ->
  String.length s = String.length d + String.length r.
Proof.
  revert d r; induction s as [|c s IH]; intros d r H; simpl in *.
  - inversion H; reflexivity.
  - destruct (is_digit c).
    + destruct (take_digits s) as [d' r'] eqn:E.
      inversion H; subst; simpl. rewrite (IH _ _ eq_refl); lia.
    + inversion H; subst; simpl; lia.
Qed.

Lemma take_int_length (s d r : string) :
  take_int s = (d, r) ->
  String.length s = String.length d + String.length r.
Proof.
  unfold take_int; destruct s as [|c s]; intros H.
  - inversion H; reflexivity.
  - destruct (Ascii.eqb c "0").
    + inversion H; subst; simpl; lia.
    + now apply take_digits_length.
Qed.

Lemma take_frac_length (s d r : string) :
  take_frac s = Some (d, r) -> String.length r <= String.length s.
Proof.
  unfold take_frac; destruct s as [|c s]; intros H.
  - inversion H; simpl; lia.
  - destruct (Ascii.eqb c ".").
    + destruct (take_digits s) as [d' r'] eqn:E.
      destruct (String.eqb d' ""); [discriminate|].
      inversion H; subst. apply take_digits_length in E. simpl; lia.
    + inversion H; subst; simpl; lia.
Qed.

Lemma take_exp_length (s : string) (e : Z) (r : string) :
  take_exp s = Some (e, r) -> String.length r <= String.length s.
Proof.
  unfold take_exp; destruct s as [|c s]; intros H.
  - inversion H; simpl; lia.
  - destruct (Ascii.eqb c "e" || Ascii.eqb c "E").
    + destruct s as [|g s'].
      * simpl in H. discriminate.
      * destruct (Ascii.eqb g "-"); [|destruct (Ascii.eqb g "+")];
          match type of H with
          | context [take_digits ?x] =>
              destruct (take_digits x) as [d' r'] eqn:E
          end;
          (destruct (String.eqb d' ""); [discriminate|]);
          inversion H; subst; apply take_digits_length in E;
          simpl in *; lia.
    + inversion H; subst; simpl; lia.
Qed.

Lemma eqb_empty_length (d : string) :
  String.eqb d "" = false -> 0 < String.length d.
Proof. destruct d; simpl; [discriminate | lia]. Qed.

Lemma parse_number_length (s : string) (n : Number) (r : string) :
  parse_number s = Parsed n r -> String.length r < String.length s.
Proof.
  unfold parse_number.
  set (p := match s with
            | String c s' => if Ascii.eqb c "-" then (true, s') else (false, s)
            | EmptyString => (false, s)
            end).
  assert (Hp : String.length (snd p) <= String.length s).
  { subst p; destruct s as [|c s']; simpl; [lia|].
    destruct (Ascii.eqb c "-"); simpl; lia. }
  destruct p as [neg s1]; simpl in Hp.
  destruct (take_int s1) as [ip s2] eqn:Ei.
  destruct (String.eqb ip "") eqn:En; [discriminate|].
  destruct (take_frac s2) as [[fp s3]|] eqn:Ef; [|discriminate].
  destruct (take_exp s3) as [[e s4]|] eqn:Ee; [|discriminate].
  intros H; inversion H; subst.
  apply take_int_length in Ei. apply take_frac_length in Ef.
  apply take_exp_length in Ee. apply eqb_empty_length in En. lia.
Qed.

Lemma parse_number_fuel (s : string) : parse_number s <> OutOfFuel.
Proof.
  unfold parse_number.
  destruct (match s with
            | String c s' => if Ascii.eqb c "-" then (true, s') else (false, s)
            | EmptyString => (false, s)
            end) as [neg s1].
  destruct (take_int s1) as [ip s2].
  destruct (String.eqb ip ""); [discriminate|].
  destruct (take_frac s2) as [[fp s3]|]; [|discriminate].
  destruct (take_exp s3) as [[e s4]|]; discriminate.
Qed.

Lemma parse_chars_length (s : string) :
  forall acc l r,
    parse_chars acc s = Parsed l r -> String.length r < String.length s.
Proof.
  assert (H : forall n s, String.length s <= n ->
              forall acc l r, parse_chars acc s = Parsed l r ->
                              String.length r < String.length s).
  { induction n as [|n IH]; intros s0 Hn acc l r.
    - destruct s0; simpl in *; [discriminate | lia].
    - destruct s0 as [|c s1]; simpl; [discriminate|].
      simpl in Hn.
      destruct (Ascii.eqb c dquote).
      { intros E; inversion E; subst; lia. }
      destruct (Ascii.eqb c "\").
      + destruct s1 as [|e s2]; [discriminate|].
        destruct (Ascii.eqb e "u").
        * destruct s2 as [|h1 [|h2 [|h3 [|h4 s3]]]]; try discriminate.
          destruct (hex4 h1 h2 h3 h4); [|discriminate].
          intros E. apply IH in E; simpl in *; lia.
        * destruct (simple_escape e); [|discriminate].
          intros E. apply IH in E; simpl in *; lia.
      + destruct (N_of_ascii c <? 32)%N; [discriminate|].
        intros E. apply IH in E; simpl in *; lia. }
  intros acc l r; apply (H (String.length s)); lia.
Qed.

Lemma parse_chars_fuel (s : string) :
  forall acc, parse_chars acc s <> OutOfFuel.
Proof.
  assert (H : forall n s, String.length s <= n ->
              forall acc, parse_chars acc s <> OutOfFuel).
  { induction n as [|n IH]; intros s0 Hn acc.
    - destruct s0; simpl in *; [discriminate | lia].
    - destruct s0 as [|c s1]; simpl; [discriminate|].
      simpl in Hn.
      destruct (Ascii.eqb c dquote); [discriminate|].
      destruct (Ascii.eqb c "\").
      + destruct s1 as [|e s2]; [discriminate|].
        destruct (Ascii.eqb e "u").
        * destruct s2 as [|h1 [|h2 [|h3 [|h4 s3]]]]; try discriminate.
          destruct (hex4 h1 h2 h3 h4); [|discriminate].
          apply IH; simpl in *; lia.
        * destruct (simple_escape e); [|discriminate].
          apply IH; simpl in *; lia.
      + destruct (N_of_ascii c <? 32)%N; [discriminate|].
        apply IH; simpl in *; lia. }
  intros acc; apply (H (String.length s)); lia.
Qed.

Lemma parse_string_length (s str r : string) :
  parse_string s = Parsed str r -> String.length r < String.length s.
Proof.
  unfold parse_string.
  destruct (parse_chars [] s) as [l r'| |] eqn:E; try discriminate.
  intros H; inversion H; subst. now apply parse_chars_length in E.
Qed.

Lemma parse_string_fuel (s : string) : parse_string s <> OutOfFuel.
Proof.
  unfold parse_string.
  destruct (parse_chars [] s) eqn:E; try discriminate.
  now apply parse_chars_fuel in E.
Qed.

Lemma parse_literal_length (s : string) (v : JSValue) (r : string) :
  parse_literal s = Parsed v r -> String.length r < String.length s.
Proof.
  unfold parse_literal.
  destruct (strip_prefix "true" s) eqn:E1.
  { intros H; inversion H; subst.
    apply strip_prefix_length in E1; simpl in E1; lia. }
  destruct (strip_prefix "false" s) eqn:E2.
  { intros H; inversion H; subst.
    apply strip_prefix_length in E2; simpl in E2; lia. }
  destruct (strip_prefix "null" s) eqn:E3; [|discriminate].
  intros H; inversion H; subst.
  apply strip_prefix_length in E3; simpl in E3; lia.
Qed.

Lemma parse_literal_fuel (s : string) : parse_literal s <> OutOfFuel.
Proof.
  unfold parse_literal.
  destruct (strip_prefix "true" s); [discriminate|].
  destruct (strip_prefix "false" s); [discriminate|].
  destruct (strip_prefix "null" s); discriminate.
Qed.

Ltac parsed_length :=
  match goal with
  | H : Parsed _ _ = Parsed _ _ |- _ => inversion H; subst; clear H
  | H : skip_ws ?s = _ |- _ =>
      let L := fresh "L" in
      pose proof (skip_ws_length s) as L; rewrite H in L; simpl in L; clear H
  | H : parse_string _ = Parsed _ _ |- _ => apply parse_string_length in H
  | H : parse_number _ = Parsed _ _ |- _ => apply parse_number_length in H
  | H : parse_literal _ = Parsed _ _ |- _ => apply parse_literal_length in H
  end.

Lemma parse_progress (fuel : nat) :
  (forall s v r,
      parse_value fuel s = Parsed v r -> String.length r < String.length s)
  /\ (forall acc s l r,
         parse_elements fuel acc s = Parsed l r ->
         String.length r < String.length s)
  /\ (forall acc s l r,
         parse_members fuel acc s = Parsed l r ->
         String.length r < String.length s).
Proof.
  induction fuel as [|fuel (IHv & IHe & IHm)].
  { repeat split; intros; discriminate. }
  repeat split.
  - intros s v r; simpl.
    destruct (skip_ws s) as [|c s1] eqn:Es; [discriminate|].
    destruct (Ascii.eqb c "{").
    { destruct (skip_ws s1) as [|d s2] eqn:Es1; [discriminate|].
      destruct (Ascii.eqb d "}").
      - intros H; repeat parsed_length; simpl in *; lia.
      - destruct (parse_members fuel [] (String d s2)) eqn:Em;
          try discriminate.
        intros H; apply IHm in Em; repeat parsed_length; simpl in *; lia. }
    destruct (Ascii.eqb c "[").
    { destruct (skip_ws s1) as [|d s2] eqn:Es1; [discriminate|].
      destruct (Ascii.eqb d "]").
      - intros H; repeat parsed_length; simpl in *; lia.
      - destruct (parse_elements fuel [] (String d s2)) eqn:Em;
          try discriminate.
        intros H; apply IHe in Em; repeat parsed_length; simpl in *; lia. }
    destruct (Ascii.eqb c dquote).
    { destruct (parse_string s1) eqn:Ep; try discriminate.
      intros H; repeat parsed_length; simpl in *; lia. }
    destruct (starts_number c).
    { destruct (parse_number (String c s1)) eqn:Ep; try discriminate.
      intros H; repeat parsed_length; simpl in *; lia. }
    intros H; repeat parsed_length; simpl in *; lia.
  - intros acc s l r; simpl.
    destruct (parse_value fuel s) as [v r0| |] eqn:Ev; try discriminate.
    apply IHv in Ev.
    destruct (skip_ws r0) as [|c r1] eqn:Es; [discriminate|].
    destruct (Ascii.eqb c ",").
    { intros H; apply IHe in H; repeat parsed_length; simpl in *; lia. }
    destruct (Ascii.eqb c "]"); [|discriminate].
    intros H; repeat parsed_length; simpl in *; lia.
  - intros acc s l r; simpl.
    destruct (skip_ws s) as [|q s1] eqn:Es; [discriminate|].
    destruct (Ascii.eqb q dquote); [|discriminate].
    destruct (parse_string s1) as [key r0| |] eqn:Ek; try discriminate.
    destruct (skip_ws r0) as [|c r1] eqn:Es0; [discriminate|].
    destruct (Ascii.eqb c ":"); [|discriminate].
    destruct (parse_value fuel r1) as [v r2| |] eqn:Ev; try discriminate.
    apply IHv in Ev.
    destruct (skip_ws r2) as [|d r3] eqn:Es2; [discriminate|].
    destruct (Ascii.eqb d ",").
    { intros H; apply IHm in H; repeat parsed_length; simpl in *; lia. }
    destruct (Ascii.eqb d "}"); [|discriminate].
    intros H; repeat parsed_length; simpl in *; lia.
Qed.

Lemma parse_enough (fuel : nat) :
  (forall s, 2 * String.length s < fuel -> parse_value fuel s <> OutOfFuel)
  /\ (forall acc s,
         2 * String.length s + 1 < fuel ->
         parse_elements fuel acc s <> OutOfFuel)
  /\ (forall acc s,
         2 * String.length s + 1 < fuel ->
         parse_members fuel acc s <> OutOfFuel).
Proof.
  induction fuel as [|fuel (IHv & IHe & IHm)].
  { repeat split; intros; lia. }
  repeat split.
  - intros s Hf; simpl.
    destruct (skip_ws s) as [|c s1] eqn:Es; [discriminate|].
    parsed_length.
    destruct (Ascii.eqb c "{").
    { destruct (skip_ws s1) as [|d s2] eqn:Es1; [discriminate|].
      parsed_length.
      destruct (Ascii.eqb d "}"); [discriminate|].
      destruct (parse_members fuel [] (String d s2)) eqn:Em;
        try discriminate.
      exfalso; revert Em; apply IHm; simpl; lia. }
    destruct (Ascii.eqb c "[").
    { destruct (skip_ws s1) as [|d s2] eqn:Es1; [discriminate|].
      parsed_length.
      destruct (Ascii.eqb d "]"); [discriminate|].
      destruct (parse_elements fuel [] (String d s2)) eqn:Em;
        try discriminate.
      exfalso; revert Em; apply IHe; simpl; lia. }
    destruct (Ascii.eqb c dquote).
    { destruct (parse_string s1) eqn:Ep; try discriminate.
      now apply parse_string_fuel in Ep. }
    destruct (starts_number c).
    { destruct (parse_number (String c s1)) eqn:Ep; try discriminate.
      now apply parse_number_fuel in Ep. }
    apply parse_literal_fuel.
  - intros acc s Hf; simpl.
    destruct (parse_value fuel s) as [v r0| |] eqn:Ev; try discriminate.
    + apply (proj1 (parse_progress fuel)) in Ev.
      destruct (skip_ws r0) as [|c r1] eqn:Es; [discriminate|].
      parsed_length.
      destruct (Ascii.eqb c ",").
      { apply IHe; lia. }
      destruct (Ascii.eqb c "]"); discriminate.
    + exfalso; revert Ev; apply IHv; lia.
  - intros acc s Hf; simpl.
    destruct (skip_ws s) as [|q s1] eqn:Es; [discriminate|].
    parsed_length.
    destruct (Ascii.eqb q dquote); [|discriminate].
    destruct (parse_string s1) as [key r0| |] eqn:Ek; try discriminate.
    + parsed_length.
      destruct (skip_ws r0) as [|c r1] eqn:Es0; [discriminate|].
      parsed_length.
      destruct (Ascii.eqb c ":"); [|discriminate].
      destruct (parse_value fuel r1) as [v r2| |] eqn:Ev; try discriminate.
      * apply (proj1 (parse_progress fuel)) in Ev.
        destruct (skip_ws r2) as [|d r3] eqn:Es2; [discriminate|].
        parsed_length.
        destruct (Ascii.eqb d ",").
        { apply IHm; lia. }
        destruct (Ascii.eqb d "}"); discriminate.
      * exfalso; revert Ev; apply IHv; lia.
    + now apply parse_string_fuel in Ek.
Qed.

(** The fuel [JSON_parse] gives the reader is enough for every text. *)
Theorem parse_value_fuel (text : string) :
  parse_value (parse_fuel text) text <> OutOfFuel.
Proof.
  apply (proj1 (parse_enough (parse_fuel text))).
  unfold parse_fuel; lia.
Qed.

End ParserFuel.

(** ** Strings and errors *)

Lemma prefix_refl (s : string) : prefix s s = true.
Proof.
  induction s as [|c s IH]; simpl; [reflexivity|].
  destruct (ascii_dec c c) as [_|N]; [exact IH | now elim N].
Qed.

Lemma includes_self (s : string) : includes s s = true.
Proof.
  destruct s as [|c s]; [reflexivity|].
  cbn [includes]. now rewrite prefix_refl.
Qed.

Lemma includes_append (p s : string) : includes (p ++ s) s = true.
Proof.
  induction p as [|c p IH].
  - apply includes_self.
  - change (String c p ++ s) with (String c (p ++ s)).
    cbn [includes]. rewrite IH. apply orb_true_r.
Qed.

Lemma prefix_append (sub s : string) :
  prefix sub s = true <-> exists post, s = sub ++ post.
Proof.
  revert s; induction sub as [|a sub IH]; intros s.
  - split; [intros _; now exists s | intros _; destruct s; reflexivity].
  - destruct s as [|b s]; simpl.
    + split; [discriminate | intros (post & E); discriminate].
    + destruct (ascii_dec a b) as [->|N].
      * rewrite IH; split; intros (post & E); exists post.
        -- now rewrite E.
        -- now injection E.
      * split; [discriminate|].
        intros (post & E); injection E as E1 E2; now elim N.
Qed.

(** [includes] is containment: [sub] lies between some [pre] and [post]. *)
Lemma includes_spec (s sub : string) :
  includes s sub = true <-> exists pre post, s = pre ++ sub ++ post.
Proof.
  induction s as [|c s IH]; cbn [includes].
  - rewrite orb_false_r, prefix_append; split.
    + intros (post & E); now exists "", post.
    + intros (pre & post & E); destruct pre; [now exists post|discriminate].
  - rewrite orb_true_iff, prefix_append, IH; split.
    + intros [(post & E) | (pre & post & E)].
      * now exists "", post.
      * exists (String c pre), post; simpl; now rewrite E.
    + intros ([|a pre] & post & E).
      * left; now exists post.
      * right; exists pre, post; simpl in E; now injection E.
Qed.

Lemma throw_new_Error_string (A : Type) (s : string) :
  @throw_new_Error A (JString s) = throw (Error s).
Proof. reflexivity. Qed.

(** ** Running an operation against the network's answer *)

Lemma ok_false_400 (r : Response) : status r = 400 -> ok r = false.
Proof. unfold ok; intros ->; reflexivity. Qed.

Lemma ok_false_409 (r : Response) : status r = 409 -> ok r = false.
Proof. unfold ok; intros ->; reflexivity. Qed.

Lemma ok_false_429 (r : Response) : status r = 429 -> ok r = false.
Proof. unfold ok; intros ->; reflexivity. Qed.

Lemma ok_true_200 (r : Response) : status r = 200 -> ok r = true.
Proof. unfold ok; intros ->; reflexivity. Qed.

Section Run.
Variable this : ChatClient.
Variable net : Network.
Variable log : list Request.

Lemma createSession_rejected (uid : option string) (e : JsError) :
  net log (session_request this uid) = Throw e ->
  createSession this uid net log
  = ((log ++ [session_request this uid])%list, Throw e).
Proof. intros H; unfold createSession, bind, fetch; now rewrite H. Qed.

Lemma createSession_answered (uid : option string) (resp : Response) :
  net log (session_request this uid) = Normal resp ->
  createSession this uid net log
  = ((log ++ [session_request this uid])%list,
     if ok resp then JSON_parse (body_text resp)
     else Throw (Error ("Failed to create session: " ++ statusText resp))).
Proof.
  intros H; unfold createSession, bind, fetch; rewrite H.
  destruct (ok resp); reflexivity.
Qed.

Lemma sendQuery_rejected (request : ChatQueryRequest) (e : JsError) :
  net log (chat_request this request) = Throw e ->
  sendQuery this request net log
  = ((log ++ [chat_request this request])%list, Throw e).
Proof. intros H; unfold sendQuery, bind, fetch; now rewrite H. Qed.

Lemma sendQuery_answered (request : ChatQueryRequest) (resp : Response) :
  net log (chat_request this request) = Normal resp ->
  sendQuery this request net log
  = ((log ++ [chat_request this request])%list,
     if ok resp then JSON_parse (body_text resp)
     else if status resp =? 429 then
       Throw (Error
         "Rate limit exceeded. Please wait a moment and try again.")
     else if status resp =? 400 then
       match JSON_parse (body_text resp) with
       | Throw e => Throw e
       | Normal error =>
           match get_prop error "detail" with
           | Throw e => Throw e
           | Normal detail =>
               match new_Error (js_or detail (JString "Invalid request"))
               with
               | Normal e => Throw e
               | Throw e => Throw e
               end
           end
       end
     else Throw (Error ("Failed to send query: " ++ statusText resp))).
Proof.
  intros H; unfold sendQuery, bind, fetch; rewrite H.
  destruct (ok resp); simpl; [reflexivity|].
  destruct (status resp =? 429); [reflexivity|].
  destruct (status resp =? 400); [|reflexivity].
  unfold json, lift.
  destruct (JSON_parse (body_text resp)) as [error|]; [|reflexivity].
  destruct (get_prop error "detail") as [detail|]; [|reflexivity].
  unfold throw_new_Error.
  destruct (new_Error _); reflexivity.
Qed.

(** A 400 answer: the error comes from the parsed body. *)
Lemma sendQuery_400 (request : ChatQueryRequest) (resp : Response) :
  net log (chat_request this request) = Normal resp ->
  status resp = 400 ->
  snd (sendQuery this request net log)
  = match JSON_parse (body_text resp) with
    | Throw e => Throw e
    | Normal error =>
        match get_prop error "detail" with
        | Throw e => Throw e
        | Normal detail =>
            match new_Error (js_or detail (JString "Invalid request"))
            with
            | Normal e => Throw e
            | Throw e => Throw e
            end
        end
    end.
Proof.
  intros H S; rewrite (sendQuery_answered _ _ H).
  rewrite (ok_false_400 _ S), S; reflexivity.
Qed.

Lemma submitFeedback_rejected (request : FeedbackRequest) (e : JsError) :
  net log (feedback_request this request) = Throw e ->
  submitFeedback this request net log
  = ((log ++ [feedback_request this request])%list, Throw e).
Proof. intros H; unfold submitFeedback, bind, fetch; now rewrite H. Qed.

Lemma submitFeedback_answered (request : FeedbackRequest)
  (resp : Response) :
  net log (feedback_request this request) = Normal resp ->
  submitFeedback this request net log
  = ((log ++ [feedback_request this request])%list,
     if ok resp then Normal tt
     else if status resp =? 409 then
       Throw (Error "Feedback already submitted for this response")
     else
       Throw (Error ("Failed to submit feedback: " ++ statusText resp))).
Proof.
  intros H; unfold submitFeedback, bind, fetch; rewrite H.
  destruct (ok resp); simpl; [reflexivity|].
  destruct (status resp =? 409); reflexivity.
Qed.

Lemma healthCheck_rejected (e : JsError) :
  net log (health_request this) = Throw e ->
  healthCheck this net log
  = ((log ++ [health_request this])%list, Throw e).
Proof. intros H; unfold healthCheck, bind, fetch; now rewrite H. Qed.

Lemma healthCheck_answered (resp : Response) :
  net log (health_request this) = Normal resp ->
  healthCheck this net log
  = ((log ++ [health_request this])%list,
     if ok resp then JSON_parse (body_text resp)
     else Throw (Error "API health check failed")).
Proof.
  intros H; unfold healthCheck, bind, fetch; rewrite H.
  destruct (ok resp); reflexivity.
Qed.
End Run.

(** ** What the reader returns *)

Lemma parse_value_defined (fuel : nat) (s : string) (v : JSValue)
  (r : string) :
  parse_value fuel s = Parsed v r -> v <> JUndefined.
Proof.
  destruct fuel as [|fuel]; simpl; [discriminate|].
  destruct (skip_ws s) as [|c s1]; [discriminate|].
  destruct (Ascii.eqb c "{").
  { destruct (skip_ws s1) as [|d s2]; [discriminate|].
    destruct (Ascii.eqb d "}"); [intros H; inversion H; discriminate|].
    destruct (parse_members fuel [] (String d s2)); try discriminate.
    intros H; inversion H; discriminate. }
  destruct (Ascii.eqb c "[").
  { destruct (skip_ws s1) as [|d s2]; [discriminate|].
    destruct (Ascii.eqb d "]"); [intros H; inversion H; discriminate|].
    destruct (parse_elements fuel [] (String d s2)); try discriminate.
    intros H; inversion H; discriminate. }
  destruct (Ascii.eqb c dquote).
  { destruct (parse_string s1); try discriminate.
    intros H; inversion H; discriminate. }
  destruct (starts_number c).
  { destruct (parse_number (String c s1)); try discriminate.
    intros H; inversion H; discriminate. }
  unfold parse_literal.
  destruct (strip_prefix "true" _); [intros H; inversion H; discriminate|].
  destruct (strip_prefix "false" _); [intros H; inversion H; discriminate|].
  destruct (strip_prefix "null" _); [intros H; inversion H; discriminate|].
  discriminate.
Qed.

(** [JSON.parse] never returns [undefined]. *)
Lemma JSON_parse_defined (text : string) (v : JSValue) :
  JSON_parse text = Normal v -> v <> JUndefined.
Proof.
  unfold JSON_parse.
  destruct (parse_value (parse_fuel text) text) as [w r| |] eqn:E;
    try discriminate.
  destruct (skip_ws r); [|discriminate].
  intros H; inversion H; subst. exact (parse_value_defined _ _ _ _ E).
Qed.

(** [JSON.parse] throws nothing but a [SyntaxError]. *)
Lemma JSON_parse_throws (text : string) (e : JsError) :
  JSON_parse text = Throw e -> exists m, e = SyntaxError m.
Proof.
  assert (S : forall r, exists m, syntax_error text r = SyntaxError m).
  { intros [|c r]; simpl; eauto. }
  unfold JSON_parse.
  destruct (parse_value (parse_fuel text) text) as [w r| r |].
  - destruct (skip_ws r) as [|c r'] eqn:E; [discriminate|].
    intros H; injection H as <-. eexists; reflexivity.
  - intros H; injection H as <-. apply S.
  - intros H; injection H as <-. eexists; reflexivity.
Qed.

(** ** Error mapping *)

(** C1, as amended.  A non-success answer that is not special-cased fails
    [createSession], [sendQuery] and [submitFeedback] with the operation's
    prefix followed by the HTTP status text, so the message contains the
    status text; [healthCheck] fails with its fixed message instead. *)
Theorem generic_failure_message (this : ChatClient) (net : Network)
  (log : list Request) (uid : option string) (query : ChatQueryRequest)
  (feedback : FeedbackRequest) (resp : Response) :
  ok resp = false ->
  (net log (session_request this uid) = Normal resp ->
   snd (createSession this uid net log)
   = Throw (Error ("Failed to create session: " ++ statusText resp))
   /\ message_contains (snd (createSession this uid net log))
        (statusText resp))
  /\ (net log (chat_request this query) = Normal resp ->
      status resp <> 429 -> status resp <> 400 ->
      snd (sendQuery this query net log)
      = Throw (Error ("Failed to send query: " ++ statusText resp))
      /\ message_contains (snd (sendQuery this query net log))
           (statusText resp))
  /\ (net log (feedback_request this feedback) = Normal resp ->
      status resp <> 409 ->
      snd (submitFeedback this feedback net log)
      = Throw (Error ("Failed to submit feedback: " ++ statusText resp))
      /\ message_contains (snd (submitFeedback this feedback net log))
           (statusText resp))
  /\ (net log (health_request this) = Normal resp ->
      snd (healthCheck this net log)
      = Throw (Error "API health check failed")).
Proof.
  intros Hok.
  assert (C : forall (A : Type) (c : Completion A) p,
             c = Throw (Error (p ++ statusText resp)) ->
             c = Throw (Error (p ++ statusText resp))
             /\ message_contains c (statusText resp)).
  { intros A c p ->; split; [reflexivity|].
    exists (Error (p ++ statusText resp)); split; [reflexivity|].
    apply includes_append. }
  split; [intros Hn | split; [intros Hn N1 N2 | split; [intros Hn N1 |]]].
  - apply (C _ _ "Failed to create session: ").
    rewrite (createSession_answered _ _ _ _ _ Hn), Hok; reflexivity.
  - apply (C _ _ "Failed to send query: ").
    rewrite (sendQuery_answered _ _ _ _ _ Hn), Hok.
    apply Z.eqb_neq in N1, N2; rewrite N1, N2; reflexivity.
  - apply (C _ _ "Failed to submit feedback: ").
    rewrite (submitFeedback_answered _ _ _ _ _ Hn), Hok.
    apply Z.eqb_neq in N1; rewrite N1; reflexivity.
  - intros Hn; rewrite (healthCheck_answered _ _ _ _ Hn), Hok; reflexivity.
Qed.

Lemma generic_failure_message_witness :
  (snd (createSession local_client None (answering server_error) [])
   = Throw (Error "Failed to create session: Internal Server Error")
   /\ message_contains
        (snd (createSession local_client None (answering server_error) []))
        "Internal Server Error")
  /\ (snd (sendQuery local_client sample_query (answering server_error) [])
      = Throw (Error "Failed to send query: Internal Server Error")
      /\ message_contains
           (snd (sendQuery local_client sample_query
                   (answering server_error) []))
           "Internal Server Error")
  /\ (snd (submitFeedback local_client sample_feedback
              (answering server_error) [])
      = Throw (Error "Failed to submit feedback: Internal Server Error")
      /\ message_contains
           (snd (submitFeedback local_client sample_feedback
                   (answering server_error) []))
           "Internal Server Error")
  /\ snd (healthCheck local_client (answering server_error) [])
     = Throw (Error "API health check failed").
Proof.
  destruct (generic_failure_message local_client (answering server_error)
              [] None sample_query sample_feedback server_error eq_refl)
    as (S & Q & F & H).
  split; [exact (S eq_refl) | split; [| split]].
  - apply (Q eq_refl); discriminate.
  - apply (F eq_refl); discriminate.
  - exact (H eq_refl).
Defined.

(** C1 as stated fails for [healthCheck]: on a 500 answer its message is the
    fixed one, which does not contain the status text. *)
Lemma healthCheck_message_omits_status_text :
  ok server_error = false
  /\ status server_error <> 429
  /\ status server_error <> 400
  /\ status server_error <> 409
  /\ ~ message_contains
         (snd (healthCheck local_client (answering server_error) []))
         (statusText server_error).
Proof.
  repeat split; try discriminate.
  intros (e & He & Hi).
  vm_compute in He; injection He as <-.
  vm_compute in Hi; discriminate.
Qed.

(** C2, as amended.  On a 400 answer to [sendQuery]: when the body is an
    object whose [detail] is a non-empty string, the error message is that
    string; when the body is a JSON value other than [null] without a
    [detail] property, the message is "Invalid request". *)
Theorem invalid_request_detail (this : ChatClient) (net : Network)
  (log : list Request) (query : ChatQueryRequest) (resp : Response)
  (error : JSValue) :
  net log (chat_request this query) = Normal resp ->
  status resp = 400 ->
  JSON_parse (body_text resp) = Normal error ->
  (forall text : string,
      get_prop error "detail" = Normal (JString text) ->
      text <> "" ->
      snd (sendQuery this query net log) = Throw (Error text))
  /\ (error <> JNull ->
      has_property error "detail" = false ->
      snd (sendQuery this query net log) = Throw (Error "Invalid request")).
Proof.
  intros Hn S P.
  rewrite (sendQuery_400 _ _ _ _ _ Hn S), P.
  split.
  - intros text G N; rewrite G.
    unfold js_or; cbn [truthy].
    destruct (String.eqb_spec text ""); [contradiction | reflexivity].
  - intros N A.
    assert (G : get_prop error "detail" = Normal JUndefined).
    { destruct error; try reflexivity.
      - now elim (JSON_parse_defined _ _ P).
      - now elim N.
      - simpl in *. destruct (lookup "detail" props);
          [discriminate | reflexivity]. }
    rewrite G; reflexivity.
Qed.

Lemma invalid_request_detail_witness :
  snd (sendQuery local_client sample_query
         (answering (bad_request (detail_body (quoted "bad mode")))) [])
  = Throw (Error "bad mode")
  /\ snd (sendQuery local_client sample_query
            (answering (bad_request "{}")) [])
     = Throw (Error "Invalid request").
Proof.
  split.
  - apply (proj1 (invalid_request_detail local_client
             (answering (bad_request (detail_body (quoted "bad mode"))))
             [] sample_query
             (bad_request (detail_body (quoted "bad mode")))
             (JObject [("detail", JString "bad mode")])
             eq_refl eq_refl eq_refl));
      [reflexivity | discriminate].
  - apply (proj2 (invalid_request_detail local_client
             (answering (bad_request "{}"))
             [] sample_query (bad_request "{}") (JObject [])
             eq_refl eq_refl eq_refl));
      [discriminate | reflexivity].
Defined.

(** C2 as stated fails when the [detail] field is present and empty: the
    message is "Invalid request", not the value of the field. *)
Lemma empty_detail_is_replaced :
  status (bad_request (detail_body (quoted ""))) = 400
  /\ JSON_parse (body_text (bad_request (detail_body (quoted ""))))
     = Normal (JObject [("detail", JString "")])
  /\ snd (sendQuery local_client sample_query
            (answering (bad_request (detail_body (quoted "")))) [])
     = Throw (Error "Invalid request")
  /\ snd (sendQuery local_client sample_query
            (answering (bad_request (detail_body (quoted "")))) [])
     <> Throw (Error "").
Proof.
  repeat split; try reflexivity.
  vm_compute; discriminate.
Qed.

(** C3.  A 429 answer fails [sendQuery] with the fixed rate-limit message
    whatever the body holds: the body is not read, so neither the [detail]
    of the 400 handling nor the status text of the generic handling
    appears. *)
Theorem rate_limit_message (this : ChatClient) (net : Network)
  (log : list Request) (query : ChatQueryRequest) (resp : Response) :
  net log (chat_request this query) = Normal resp ->
  status resp = 429 ->
  snd (sendQuery this query net log)
  = Throw (Error "Rate limit exceeded. Please wait a moment and try again.").
Proof.
  intros Hn S.
  rewrite (sendQuery_answered _ _ _ _ _ Hn), (ok_false_429 _ S), S.
  reflexivity.
Qed.

Lemma rate_limit_message_witness :
  snd (sendQuery local_client sample_query
         (answering
            (mkResponse 429 "Too Many Requests"
               (detail_body (quoted "slow down"))))
         [])
  = Throw (Error "Rate limit exceeded. Please wait a moment and try again.").
Proof.
  apply (rate_limit_message local_client
           (answering (mkResponse 429 "Too Many Requests"
                         (detail_body (quoted "slow down"))))
           [] sample_query _ eq_refl eq_refl).
Defined.

(** ** Successful answers *)

(** C4.  On a 200 answer whose body parses, [sendQuery] returns the parsed
    body itself; its [source_chunks] is the array of the body, element for
    element and in the same order. *)
Theorem source_chunks_order (this : ChatClient) (net : Network)
  (log : list Request) (query : ChatQueryRequest) (resp : Response)
  (parsed : JSValue) (chunks : list JSValue) :
  net log (chat_request this query) = Normal resp ->
  status resp = 200 ->
  JSON_parse (body_text resp) = Normal parsed ->
  source_chunks parsed = Some chunks ->
  exists response : JSValue,
    snd (sendQuery this query net log) = Normal response
    /\ source_chunks response = Some chunks
    /\ forall (i : nat) (returned : list JSValue),
         source_chunks response = Some returned ->
         nth_error returned i = nth_error chunks i.
Proof.
  intros Hn S P C.
  exists parsed.
  rewrite (sendQuery_answered _ _ _ _ _ Hn), (ok_true_200 _ S).
  repeat split; [exact P | exact C |].
  intros i returned R. rewrite C in R. now injection R as <-.
Qed.

Lemma source_chunks_order_witness :
  exists response : JSValue,
    snd (sendQuery local_client sample_query
           (answering (mkResponse 200 "OK" chat_body)) [])
    = Normal response
    /\ source_chunks response = Some chat_chunks
    /\ forall (i : nat) (returned : list JSValue),
         source_chunks response = Some returned ->
         nth_error returned i = nth_error chat_chunks i.
Proof.
  apply (source_chunks_order local_client
           (answering (mkResponse 200 "OK" chat_body)) [] sample_query _
           (JObject [("response_id", JString "r-1");
                     ("source_chunks", JArray chat_chunks)])
           chat_chunks eq_refl eq_refl eq_refl eq_refl).
Defined.

(** C5.  A 409 answer fails [submitFeedback] with the fixed
    duplicate-feedback message whatever the body holds; a success status
    returns no value. *)
Theorem feedback_conflict_and_success (this : ChatClient) (net : Network)
  (log : list Request) (feedback : FeedbackRequest) (resp : Response) :
  net log (feedback_request this feedback) = Normal resp ->
  (status resp = 409 ->
   snd (submitFeedback this feedback net log)
   = Throw (Error "Feedback already submitted for this response"))
  /\ (ok resp = true ->
      snd (submitFeedback this feedback net log) = Normal tt).
Proof.
  intros Hn; rewrite (submitFeedback_answered _ _ _ _ _ Hn).
  split.
  - intros S; rewrite (ok_false_409 _ S), S; reflexivity.
  - intros ->; reflexivity.
Qed.

Lemma feedback_conflict_and_success_witness :
  snd (submitFeedback local_client sample_feedback
         (answering (mkResponse 409 "Conflict" "not JSON")) [])
  = Throw (Error "Feedback already submitted for this response")
  /\ snd (submitFeedback local_client sample_feedback
            (answering (mkResponse 204 "No Content" "")) [])
     = Normal tt.
Proof.
  split.
  - apply (proj1 (feedback_conflict_and_success local_client
             (answering (mkResponse 409 "Conflict" "not JSON")) []
             sample_feedback _ eq_refl)); reflexivity.
  - apply (proj2 (feedback_conflict_and_success local_client
             (answering (mkResponse 204 "No Content" "")) []
             sample_feedback _ eq_refl)); reflexivity.
Defined.

(** C6.  On a 200 answer with the body [health_body], that is
    {"status":"ok","version":"1.2.3"}, [healthCheck] returns exactly that
    object. *)
Theorem healthCheck_returns_body (this : ChatClient) (net : Network)
  (log : list Request) (resp : Response) :
  net log (health_request this) = Normal resp ->
  status resp = 200 ->
  body_text resp = health_body ->
  snd (healthCheck this net log) = Normal health_object.
Proof.
  intros Hn S B.
  rewrite (healthCheck_answered _ _ _ _ Hn), (ok_true_200 _ S), B.
  reflexivity.
Qed.

Lemma healthCheck_returns_body_witness :
  snd (healthCheck local_client
         (answering (mkResponse 200 "OK" health_body)) [])
  = Normal health_object.
Proof.
  apply (healthCheck_returns_body local_client
           (answering (mkResponse 200 "OK" health_body)) [] _
           eq_refl eq_refl eq_refl).
Defined.

(** ** Requests *)

(** C7.  Each of the four operations sends exactly one request, whatever
    the network does with it (a success, an error status, or a failure
    before any response): the log of sent requests grows by that one
    request and nothing else. *)
Theorem exactly_one_request (this : ChatClient) (net : Network)
  (log : list Request) (uid : option string) (query : ChatQueryRequest)
  (feedback : FeedbackRequest) :
  fst (createSession this uid net log)
  = (log ++ [session_request this uid])%list
  /\ fst (sendQuery this query net log)
     = (log ++ [chat_request this query])%list
  /\ fst (submitFeedback this feedback net log)
     = (log ++ [feedback_request this feedback])%list
  /\ fst (healthCheck this net log) = (log ++ [health_request this])%list.
Proof.
  repeat split.
  - destruct (net log (session_request this uid)) eqn:E.
    + now rewrite (createSession_answered _ _ _ _ _ E).
    + now rewrite (createSession_rejected _ _ _ _ _ E).
  - destruct (net log (chat_request this query)) eqn:E.
    + now rewrite (sendQuery_answered _ _ _ _ _ E).
    + now rewrite (sendQuery_rejected _ _ _ _ _ E).
  - destruct (net log (feedback_request this feedback)) eqn:E.
    + now rewrite (submitFeedback_answered _ _ _ _ _ E).
    + now rewrite (submitFeedback_rejected _ _ _ _ _ E).
  - destruct (net log (health_request this)) eqn:E.
    + now rewrite (healthCheck_answered _ _ _ _ E).
    + now rewrite (healthCheck_rejected _ _ _ _ E).
Qed.

(** ** The 400 answer of the chat endpoint *)

(** C8.  On a 400 answer whose body is an object with a [detail] that is
    present but falsy (the empty string, for one), [sendQuery] fails with
    "Invalid request". *)
Theorem falsy_detail_falls_back (this : ChatClient) (net : Network)
  (log : list Request) (query : ChatQueryRequest) (resp : Response)
  (props : list (string * JSValue)) (detail : JSValue) :
  net log (chat_request this query) = Normal resp ->
  status resp = 400 ->
  JSON_parse (body_text resp) = Normal (JObject props) ->
  lookup "detail" props = Some detail ->
  truthy detail = false ->
  snd (sendQuery this query net log) = Throw (Error "Invalid request").
Proof.
  intros Hn S P L F.
  rewrite (sendQuery_400 _ _ _ _ _ Hn S), P.
  simpl; rewrite L. unfold js_or; rewrite F. reflexivity.
Qed.

Lemma falsy_detail_falls_back_witness :
  snd (sendQuery local_client sample_query
         (answering (bad_request (detail_body (quoted ""))))
         [])
  = Throw (Error "Invalid request").
Proof.
  apply (falsy_detail_falls_back local_client
           (answering
              (bad_request (detail_body (quoted ""))))
           [] sample_query _ [("detail", JString "")] (JString "")
           eq_refl eq_refl eq_refl eq_refl eq_refl).
Defined.

(** C9.  On a 400 answer whose body is not valid JSON, [sendQuery] fails
    with the error of the parse, a [SyntaxError], and so with none of the
    errors the client builds itself. *)
Theorem malformed_error_body (this : ChatClient) (net : Network)
  (log : list Request) (query : ChatQueryRequest) (resp : Response)
  (e : JsError) :
  net log (chat_request this query) = Normal resp ->
  status resp = 400 ->
  JSON_parse (body_text resp) = Throw e ->
  snd (sendQuery this query net log) = Throw e
  /\ (exists m, e = SyntaxError m)
  /\ forall m, snd (sendQuery this query net log) <> Throw (Error m).
Proof.
  intros Hn S P.
  rewrite (sendQuery_400 _ _ _ _ _ Hn S), P.
  destruct (JSON_parse_throws _ _ P) as (m & ->).
  repeat split; [eauto | discriminate].
Qed.

Lemma malformed_error_body_witness :
  snd (sendQuery local_client sample_query
         (answering (bad_request "<html>")) [])
  = Throw (SyntaxError "Unexpected token < in JSON at position 0")
  /\ (exists m,
         SyntaxError "Unexpected token < in JSON at position 0"
         = SyntaxError m)
  /\ forall m,
       snd (sendQuery local_client sample_query
              (answering (bad_request "<html>")) [])
       <> Throw (Error m).
Proof.
  apply (malformed_error_body local_client
           (answering (bad_request "<html>")) []
           sample_query _ _ eq_refl eq_refl eq_refl).
Defined.

(** C10.  When the user identifier is left out, the body [createSession]
    sends is "{}": the [user_identifier] key is dropped, not sent as
    [null]. *)
Theorem createSession_empty_body (this : ChatClient) (net : Network)
  (log : list Request) :
  body (session_request this None) = Some "{}"
  /\ exists req : Request,
       fst (createSession this None net log) = (log ++ [req])%list
       /\ body req = Some "{}".
Proof.
  split; [reflexivity|].
  exists (session_request this None); split; [|reflexivity].
  destruct (net log (session_request this None)) eqn:E.
  - now rewrite (createSession_answered _ _ _ _ _ E).
  - now rewrite (createSession_rejected _ _ _ _ _ E).
Qed.

(** ** Beyond the status mapping *)

(** X1.  A failure of the transport, before any response, fails each of
    the four operations with the very error [fetch] was rejected with. *)
Theorem transport_failure_propagates (this : ChatClient) (net : Network)
  (log : list Request) (uid : option string) (query : ChatQueryRequest)
  (feedback : FeedbackRequest) (e : JsError) :
  (net log (session_request this uid) = Throw e ->
   snd (createSession this uid net log) = Throw e)
  /\ (net log (chat_request this query) = Throw e ->
      snd (sendQuery this query net log) = Throw e)
  /\ (net log (feedback_request this feedback) = Throw e ->
      snd (submitFeedback this feedback net log) = Throw e)
  /\ (net log (health_request this) = Throw e ->
      snd (healthCheck this net log) = Throw e).
Proof.
  repeat split; intros Hn.
  - now rewrite (createSession_rejected _ _ _ _ _ Hn).
  - now rewrite (sendQuery_rejected _ _ _ _ _ Hn).
  - now rewrite (submitFeedback_rejected _ _ _ _ _ Hn).
  - now rewrite (healthCheck_rejected _ _ _ _ Hn).
Qed.

Lemma transport_failure_propagates_witness :
  snd (createSession local_client (Some "u-1")
         (failing (TypeError "Failed to fetch")) [])
  = Throw (TypeError "Failed to fetch")
  /\ snd (sendQuery local_client sample_query
            (failing (TypeError "Failed to fetch")) [])
     = Throw (TypeError "Failed to fetch")
  /\ snd (submitFeedback local_client sample_feedback
            (failing (TypeError "Failed to fetch")) [])
     = Throw (TypeError "Failed to fetch")
  /\ snd (healthCheck local_client
            (failing (TypeError "Failed to fetch")) [])
     = Throw (TypeError "Failed to fetch").
Proof.
  destruct (transport_failure_propagates local_client
              (failing (TypeError "Failed to fetch")) [] (Some "u-1")
              sample_query sample_feedback (TypeError "Failed to fetch"))
    as (S & Q & F & H).
  exact (conj (S eq_refl) (conj (Q eq_refl) (conj (F eq_refl) (H eq_refl)))).
Defined.

(** X2.  On a success status, [createSession], [sendQuery] and
    [healthCheck] return whatever JSON value the body holds, without any
    check of its shape: an array, a number or [null] comes back as it
    is. *)
Theorem success_body_unvalidated (this : ChatClient) (net : Network)
  (log : list Request) (uid : option string) (query : ChatQueryRequest)
  (resp : Response) (v : JSValue) :
  ok resp = true ->
  JSON_parse (body_text resp) = Normal v ->
  (net log (session_request this uid) = Normal resp ->
   snd (createSession this uid net log) = Normal v)
  /\ (net log (chat_request this query) = Normal resp ->
      snd (sendQuery this query net log) = Normal v)
  /\ (net log (health_request this) = Normal resp ->
      snd (healthCheck this net log) = Normal v).
Proof.
  intros Hok P; repeat split; intros Hn.
  - now rewrite (createSession_answered _ _ _ _ _ Hn), Hok.
  - now rewrite (sendQuery_answered _ _ _ _ _ Hn), Hok.
  - now rewrite (healthCheck_answered _ _ _ _ Hn), Hok.
Qed.

Lemma success_body_unvalidated_witness :
  snd (createSession local_client None
         (answering (mkResponse 201 "Created" "null")) [])
  = Normal JNull
  /\ snd (sendQuery local_client sample_query
            (answering (mkResponse 201 "Created" "null")) [])
     = Normal JNull
  /\ snd (healthCheck local_client
            (answering (mkResponse 201 "Created" "null")) [])
     = Normal JNull.
Proof.
  destruct (success_body_unvalidated local_client
              (answering (mkResponse 201 "Created" "null")) [] None
              sample_query (mkResponse 201 "Created" "null") JNull
              eq_refl eq_refl)
    as (S & Q & H).
  exact (conj (S eq_refl) (conj (Q eq_refl) (H eq_refl))).
Defined.

(** X3.  On a success status whose body is not JSON (an empty body, for
    one), [createSession], [sendQuery] and [healthCheck] fail with the
    [SyntaxError] of the parse although the status said success. *)
Theorem success_body_malformed (this : ChatClient) (net : Network)
  (log : list Request) (uid : option string) (query : ChatQueryRequest)
  (resp : Response) (e : JsError) :
  ok resp = true ->
  JSON_parse (body_text resp) = Throw e ->
  (exists m, e = SyntaxError m)
  /\ (net log (session_request this uid) = Normal resp ->
      snd (createSession this uid net log) = Throw e)
  /\ (net log (chat_request this query) = Normal resp ->
      snd (sendQuery this query net log) = Throw e)
  /\ (net log (health_request this) = Normal resp ->
      snd (healthCheck this net log) = Throw e).
Proof.
  intros Hok P; split; [exact (JSON_parse_throws _ _ P)|].
  repeat split; intros Hn.
  - now rewrite (createSession_answered _ _ _ _ _ Hn), Hok.
  - now rewrite (sendQuery_answered _ _ _ _ _ Hn), Hok.
  - now rewrite (healthCheck_answered _ _ _ _ Hn), Hok.
Qed.

Lemma success_body_malformed_witness :
  (exists m, SyntaxError "Unexpected end of JSON input" = SyntaxError m)
  /\ snd (createSession local_client None
            (answering (mkResponse 204 "No Content" "")) [])
     = Throw (SyntaxError "Unexpected end of JSON input")
  /\ snd (sendQuery local_client sample_query
            (answering (mkResponse 204 "No Content" "")) [])
     = Throw (SyntaxError "Unexpected end of JSON input")
  /\ snd (healthCheck local_client
            (answering (mkResponse 204 "No Content" "")) [])
     = Throw (SyntaxError "Unexpected end of JSON input").
Proof.
  destruct (success_body_malformed local_client
              (answering (mkResponse 204 "No Content" "")) [] None
              sample_query (mkResponse 204 "No Content" "")
              (SyntaxError "Unexpected end of JSON input")
              eq_refl eq_refl)
    as (M & S & Q & H).
  exact (conj M (conj (S eq_refl) (conj (Q eq_refl) (H eq_refl)))).
Defined.

(** X4.  [submitFeedback] never reads the body of the response: two
    answers with the same status and status text give the same outcome,
    whatever their bodies. *)
Theorem feedback_ignores_body (this : ChatClient) (net net' : Network)
  (log : list Request) (feedback : FeedbackRequest)
  (resp resp' : Response) :
  net log (feedback_request this feedback) = Normal resp ->
  net' log (feedback_request this feedback) = Normal resp' ->
  status resp = status resp' ->
  statusText resp = statusText resp' ->
  submitFeedback this feedback net log
  = submitFeedback this feedback net' log.
Proof.
  intros Hn Hn' S T.
  rewrite (submitFeedback_answered _ _ _ _ _ Hn),
    (submitFeedback_answered _ _ _ _ _ Hn').
  unfold ok; now rewrite S, T.
Qed.

Lemma feedback_ignores_body_witness :
  submitFeedback local_client sample_feedback
    (answering (mkResponse 200 "OK" "")) []
  = submitFeedback local_client sample_feedback
      (answering (mkResponse 200 "OK" (detail_body (quoted "ignored")))) [].
Proof.
  apply (feedback_ignores_body local_client
           (answering (mkResponse 200 "OK" ""))
           (answering (mkResponse 200 "OK" (detail_body (quoted "ignored"))))
           [] sample_feedback (mkResponse 200 "OK" "")
           (mkResponse 200 "OK" (detail_body (quoted "ignored")))
           eq_refl eq_refl eq_refl eq_refl).
Defined.

(** X5.  The body of a non-success answer is read in one place only, the
    400 of [sendQuery]: [createSession] and [healthCheck] on any
    non-success status, and [sendQuery] on any other than 400, give the
    same outcome for two answers that differ only in their bodies. *)
Theorem error_body_unread (this : ChatClient) (net net' : Network)
  (log : list Request) (uid : option string) (query : ChatQueryRequest)
  (resp resp' : Response) :
  ok resp = false ->
  status resp = status resp' ->
  statusText resp = statusText resp' ->
  (net log (session_request this uid) = Normal resp ->
   net' log (session_request this uid) = Normal resp' ->
   createSession this uid net log = createSession this uid net' log)
  /\ (net log (health_request this) = Normal resp ->
      net' log (health_request this) = Normal resp' ->
      healthCheck this net log = healthCheck this net' log)
  /\ (net log (chat_request this query) = Normal resp ->
      net' log (chat_request this query) = Normal resp' ->
      status resp <> 400 ->
      sendQuery this query net log = sendQuery this query net' log).
Proof.
  intros Hok S T.
  assert (Hok' : ok resp' = false) by (unfold ok in *; now rewrite <- S).
  repeat split.
  - intros Hn Hn'.
    rewrite (createSession_answered _ _ _ _ _ Hn),
      (createSession_answered _ _ _ _ _ Hn'), Hok, Hok', T; reflexivity.
  - intros Hn Hn'.
    rewrite (healthCheck_answered _ _ _ _ Hn),
      (healthCheck_answered _ _ _ _ Hn'), Hok, Hok'; reflexivity.
  - intros Hn Hn' N.
    rewrite (sendQuery_answered _ _ _ _ _ Hn),
      (sendQuery_answered _ _ _ _ _ Hn'), Hok, Hok', <- S, T.
    apply Z.eqb_neq in N; rewrite N; reflexivity.
Qed.

Lemma error_body_unread_witness :
  createSession local_client None (answering server_error) []
  = createSession local_client None
      (answering (mkResponse 500 "Internal Server Error"
                    (detail_body (quoted "boom")))) []
  /\ healthCheck local_client (answering server_error) []
     = healthCheck local_client
         (answering (mkResponse 500 "Internal Server Error"
                       (detail_body (quoted "boom")))) []
  /\ sendQuery local_client sample_query (answering server_error) []
     = sendQuery local_client sample_query
         (answering (mkResponse 500 "Internal Server Error"
                       (detail_body (quoted "boom")))) [].
Proof.
  destruct (error_body_unread local_client (answering server_error)
              (answering (mkResponse 500 "Internal Server Error"
                            (detail_body (quoted "boom"))))
              [] None sample_query server_error
              (mkResponse 500 "Internal Server Error"
                 (detail_body (quoted "boom")))
              eq_refl eq_refl eq_refl)
    as (S & H & Q).
  split; [exact (S eq_refl eq_refl) | split].
  - exact (H eq_refl eq_refl).
  - apply (Q eq_refl eq_refl); discriminate.
Defined.

(** X6.  On a 400 answer whose body is the JSON value [null], [sendQuery]
    fails with a [TypeError] (the read of [detail] on [null]), not with
    "Invalid request". *)
Theorem null_error_body (this : ChatClient) (net : Network)
  (log : list Request) (query : ChatQueryRequest) (resp : Response) :
  net log (chat_request this query) = Normal resp ->
  status resp = 400 ->
  JSON_parse (body_text resp) = Normal JNull ->
  (exists m, snd (sendQuery this query net log) = Throw (TypeError m))
  /\ snd (sendQuery this query net log) <> Throw (Error "Invalid request").
Proof.
  intros Hn S P.
  rewrite (sendQuery_400 _ _ _ _ _ Hn S), P; simpl.
  split; [eexists; reflexivity | discriminate].
Qed.

Lemma null_error_body_witness :
  (exists m,
      snd (sendQuery local_client sample_query
             (answering (bad_request " null ")) [])
      = Throw (TypeError m))
  /\ snd (sendQuery local_client sample_query
            (answering (bad_request " null ")) [])
     <> Throw (Error "Invalid request").
Proof.
  apply (null_error_body local_client (answering (bad_request " null "))
           [] sample_query (bad_request " null ")
           eq_refl eq_refl eq_refl).
Defined.

(** X7.  A client built with an explicit base URL uses it whatever the
    environment; the default is the production URL exactly when
    [NODE_ENV] is the string "production", and the local URL in every
    other case, [NODE_ENV] unset included. *)
Theorem base_url_selection (NODE_ENV : option string) (url : string) :
  baseUrl (new_ChatClient NODE_ENV (Some url)) = url
  /\ (baseUrl (chatClient NODE_ENV)
      = "https://rag-chatbot-api-lr57.onrender.com"
      <-> NODE_ENV = Some "production")
  /\ (baseUrl (chatClient NODE_ENV) = "http://localhost:8000"
      <-> NODE_ENV <> Some "production").
Proof.
  split; [reflexivity|].
  unfold chatClient, new_ChatClient, API_BASE_URL; simpl.
  destruct NODE_ENV as [env|].
  - destruct (String.eqb_spec env "production") as [->|N].
    + split; split; try reflexivity; try discriminate.
      intros N; now elim N.
    + split; split; try discriminate.
      * intros E; injection E as E; contradiction.
      * intros _ E; injection E as E; contradiction.
      * reflexivity.
  - split; split; try discriminate; reflexivity.
Qed.

(** X9.  Where the body of a response is not read, a failure is an
    [Error] built by the client and nothing else: [submitFeedback], once
    a response has arrived, returns no value or fails with such an
    [Error]; so do, on a non-success status, [createSession],
    [healthCheck] and, off the 400 status, [sendQuery]. *)
Theorem failure_kinds (this : ChatClient) (net : Network)
  (log : list Request) (uid : option string) (query : ChatQueryRequest)
  (feedback : FeedbackRequest) (resp : Response) :
  (net log (feedback_request this feedback) = Normal resp ->
   snd (submitFeedback this feedback net log) = Normal tt
   \/ exists m, snd (submitFeedback this feedback net log)
                = Throw (Error m))
  /\ (net log (session_request this uid) = Normal resp ->
      ok resp = false ->
      exists m, snd (createSession this uid net log) = Throw (Error m))
  /\ (net log (health_request this) = Normal resp ->
      ok resp = false ->
      exists m, snd (healthCheck this net log) = Throw (Error m))
  /\ (net log (chat_request this query) = Normal resp ->
      ok resp = false ->
      status resp <> 400 ->
      exists m, snd (sendQuery this query net log) = Throw (Error m)).
Proof.
  split; [| split; [| split]].
  - intros Hn; rewrite (submitFeedback_answered _ _ _ _ _ Hn).
    destruct (ok resp); [now left | right].
    destruct (status resp =? 409); eexists; reflexivity.
  - intros Hn Hok; rewrite (createSession_answered _ _ _ _ _ Hn), Hok.
    eexists; reflexivity.
  - intros Hn Hok; rewrite (healthCheck_answered _ _ _ _ Hn), Hok.
    eexists; reflexivity.
  - intros Hn Hok N; rewrite (sendQuery_answered _ _ _ _ _ Hn), Hok.
    apply Z.eqb_neq in N; rewrite N.
    destruct (status resp =? 429); eexists; reflexivity.
Qed.

Lemma failure_kinds_witness :
  (snd (submitFeedback local_client sample_feedback
          (answering server_error) []) = Normal tt
   \/ exists m, snd (submitFeedback local_client sample_feedback
                       (answering server_error) [])
                = Throw (Error m))
  /\ (exists m,
         snd (createSession local_client None (answering server_error) [])
         = Throw (Error m))
  /\ (exists m,
         snd (healthCheck local_client (answering server_error) [])
         = Throw (Error m))
  /\ (exists m,
         snd (sendQuery local_client sample_query
                (answering server_error) [])
         = Throw (Error m)).
Proof.
  destruct (failure_kinds local_client (answering server_error) [] None
              sample_query sample_feedback server_error)
    as (F & S & H & Q).
  split; [exact (F eq_refl) | split; [exact (S eq_refl eq_refl) | split]].
  - exact (H eq_refl eq_refl).
  - apply (Q eq_refl eq_refl); discriminate.
Defined.

(** X10.  On a 400 answer to [sendQuery] whose [detail] is truthy, the
    outcome is that of [new Error(detail)]: an [Error] whose message is
    the detail converted to a string (a number as the engine prints it, an
    array as its elements joined by commas, an object as
    "[object Object]"), or, when the conversion throws (an object with a
    property of its own named [toString]), the [TypeError] of the
    conversion. *)
Theorem truthy_detail_conversion (this : ChatClient) (net : Network)
  (log : list Request) (query : ChatQueryRequest) (resp : Response)
  (error detail : JSValue) :
  net log (chat_request this query) = Normal resp ->
  status resp = 400 ->
  JSON_parse (body_text resp) = Normal error ->
  get_prop error "detail" = Normal detail ->
  truthy detail = true ->
  snd (sendQuery this query net log)
  = match to_string detail with
    | Normal text => Throw (Error text)
    | Throw e => Throw e
    end.
Proof.
  intros Hn S P G T.
  rewrite (sendQuery_400 _ _ _ _ _ Hn S), P, G.
  unfold js_or; rewrite T.
  destruct detail; try discriminate; unfold new_Error;
    destruct (to_string _); reflexivity.
Qed.

Lemma truthy_detail_conversion_witness :
  snd (sendQuery local_client sample_query
         (answering (bad_request (detail_body "12345678901234567890")))
         [])
  = Throw (Error "12345678901234567000")
  /\ snd (sendQuery local_client sample_query
            (answering (bad_request (detail_body "[422, true, null]")))
            [])
     = Throw (Error "422,true,")
  /\ snd (sendQuery local_client sample_query
            (answering
               (bad_request (detail_body (detail_body "1")))) [])
     = Throw (Error "[object Object]")
  /\ snd (sendQuery local_client sample_query
            (answering
               (bad_request
                  (detail_body ("{" ++ member "toString" "1" ++ "}"))))
            [])
     = Throw (TypeError "Cannot convert object to primitive value").
Proof.
  split; [| split; [| split]].
  - exact (truthy_detail_conversion local_client
             (answering (bad_request (detail_body "12345678901234567890")))
             [] sample_query
             (bad_request (detail_body "12345678901234567890"))
             (JObject [("detail",
                        JNumber (mkNumber 12345678901234567890 0))])
             (JNumber (mkNumber 12345678901234567890 0))
             eq_refl eq_refl eq_refl eq_refl eq_refl).
  - exact (truthy_detail_conversion local_client
             (answering (bad_request (detail_body "[422, true, null]")))
             [] sample_query
             (bad_request (detail_body "[422, true, null]"))
             (JObject [("detail",
                        JArray [JNumber (mkNumber 422 0); JBool true;
                                JNull])])
             (JArray [JNumber (mkNumber 422 0); JBool true; JNull])
             eq_refl eq_refl eq_refl eq_refl eq_refl).
  - exact (truthy_detail_conversion local_client
             (answering (bad_request (detail_body (detail_body "1"))))
             [] sample_query
             (bad_request (detail_body (detail_body "1")))
             (JObject [("detail",
                        JObject [("detail", JNumber (mkNumber 1 0))])])
             (JObject [("detail", JNumber (mkNumber 1 0))])
             eq_refl eq_refl eq_refl eq_refl eq_refl).
  - exact (truthy_detail_conversion local_client
             (answering
                (bad_request
                   (detail_body ("{" ++ member "toString" "1" ++ "}"))))
             [] sample_query
             (bad_request
                (detail_body ("{" ++ member "toString" "1" ++ "}")))
             (JObject [("detail",
                        JObject [("toString", JNumber (mkNumber 1 0))])])
             (JObject [("toString", JNumber (mkNumber 1 0))])
             eq_refl eq_refl eq_refl eq_refl eq_refl).
Defined.

(** ** Request bodies read back *)

Lemma string_app_assoc (a b c : string) : (a ++ b) ++ c = a ++ (b ++ c).
Proof. induction a as [|x a IH]; simpl; [reflexivity | now rewrite IH]. Qed.

Lemma string_app_nil (a : string) : a ++ "" = a.
Proof. induction a as [|x a IH]; simpl; [reflexivity | now rewrite IH]. Qed.

Lemma parse_chars_quote_char (c : ascii) (acc : list StrPiece)
  (rest : string) :
  parse_chars acc (quote_char c ++ rest)
  = parse_chars (piece_of c :: acc) rest.
Proof. destruct c as [[] [] [] [] [] [] [] []]; reflexivity. Qed.

Lemma encode_piece (c : ascii) (l : list StrPiece) :
  encode_pieces (piece_of c :: l) = String c (encode_pieces l).
Proof.
  destruct c as [[] [] [] [] [] [] [] []];
    try reflexivity; destruct l as [|[x|w] l']; reflexivity.
Qed.

Lemma encode_string_pieces (s : string) : encode_pieces (string_pieces s) = s.
Proof.
  induction s as [|c s IH]; [reflexivity|].
  unfold string_pieces in *; cbn [list_ascii_of_string map].
  now rewrite encode_piece, IH.
Qed.

Lemma parse_chars_quoted (s : string) :
  forall acc rest,
    parse_chars acc (quote_chars s ++ String dquote rest)
    = Parsed (rev acc ++ string_pieces s)%list rest.
Proof.
  induction s as [|c s IH]; intros acc rest.
  - simpl. now rewrite app_nil_r.
  - cbn [quote_chars]. rewrite string_app_assoc, parse_chars_quote_char, IH.
    unfold string_pieces; cbn [list_ascii_of_string map rev].
    now rewrite <- app_assoc.
Qed.

(** Reading back a quoted string gives the string. *)
Lemma parse_string_quoted (s rest : string) :
  parse_string (quote_chars s ++ String dquote rest) = Parsed s rest.
Proof.
  unfold parse_string. rewrite parse_chars_quoted; simpl.
  now rewrite encode_string_pieces.
Qed.

Lemma quote_json_string_append (s rest : string) :
  quote_json_string s ++ rest
  = String dquote (quote_chars s ++ String dquote rest).
Proof.
  unfold quote_json_string, quoted; simpl. now rewrite string_app_assoc.
Qed.

(** ** More fuel reads the same *)

Section MoreFuel.

Local Open Scope nat_scope.

Lemma parse_more_fuel (fuel extra : nat) :
  (forall s,
      parse_value fuel s <> OutOfFuel ->
      parse_value (fuel + extra) s = parse_value fuel s)
  /\ (forall acc s,
         parse_elements fuel acc s <> OutOfFuel ->
         parse_elements (fuel + extra) acc s = parse_elements fuel acc s)
  /\ (forall acc s,
         parse_members fuel acc s <> OutOfFuel ->
         parse_members (fuel + extra) acc s = parse_members fuel acc s).
Proof.
  induction fuel as [|fuel (IHv & IHe & IHm)].
  { repeat split; intros; simpl in *; congruence. }
  repeat split.
  - intros s; simpl.
    destruct (skip_ws s) as [|c s1]; [reflexivity|].
    destruct (Ascii.eqb c "{").
    { destruct (skip_ws s1) as [|d s2]; [reflexivity|].
      destruct (Ascii.eqb d "}"); [reflexivity|].
      intros H.
      destruct (parse_members fuel [] (String d s2)) eqn:E;
        try congruence; rewrite IHm, E; congruence. }
    destruct (Ascii.eqb c "[").
    { destruct (skip_ws s1) as [|d s2]; [reflexivity|].
      destruct (Ascii.eqb d "]"); [reflexivity|].
      intros H.
      destruct (parse_elements fuel [] (String d s2)) eqn:E;
        try congruence; rewrite IHe, E; congruence. }
    reflexivity.
  - intros acc s; simpl.
    destruct (parse_value fuel s) as [v r| r |] eqn:E; try congruence.
    + rewrite IHv, E by congruence.
      destruct (skip_ws r) as [|c r1]; [reflexivity|].
      destruct (Ascii.eqb c ","); [apply IHe | reflexivity].
    + rewrite IHv, E by congruence. reflexivity.
  - intros acc s; simpl.
    destruct (skip_ws s) as [|q s1]; [reflexivity|].
    destruct (Ascii.eqb q dquote); [|reflexivity].
    destruct (parse_string s1) as [key r| |]; try reflexivity.
    destruct (skip_ws r) as [|c r1]; [reflexivity|].
    destruct (Ascii.eqb c ":"); [|reflexivity].
    destruct (parse_value fuel r1) as [v r2| r2 |] eqn:E; try congruence.
    + rewrite IHv, E by congruence.
      destruct (skip_ws r2) as [|d r3]; [reflexivity|].
      destruct (Ascii.eqb d ","); [apply IHm | reflexivity].
    + rewrite IHv, E by congruence. reflexivity.
Qed.

(** Two amounts of fuel that both suffice read the same value. *)
Lemma parse_value_any_fuel (f1 f2 : nat) (s : string) :
  parse_value f1 s <> OutOfFuel ->
  parse_value f2 s <> OutOfFuel ->
  parse_value f1 s = parse_value f2 s.
Proof.
  intros H1 H2.
  rewrite <- (proj1 (parse_more_fuel f1 f2) s H1).
  rewrite <- (proj1 (parse_more_fuel f2 f1) s H2).
  now rewrite Nat.add_comm.
Qed.

End MoreFuel.

(** What [JSON.parse] returns can be read with any fuel that suffices. *)
Lemma JSON_parse_with_fuel (fuel : nat) (text : string) (v : JSValue) :
  parse_value fuel text = Parsed v "" ->
  JSON_parse text = Normal v.
Proof.
  intros H. unfold JSON_parse.
  rewrite (parse_value_any_fuel (parse_fuel text) fuel text).
  - now rewrite H.
  - apply parse_value_fuel.
  - rewrite H; discriminate.
Qed.

(** ** Reading back a serialized object of strings *)

Lemma parse_value_flat (v : JSValue) (fuel : nat) (rest : string) :
  is_flat v = true ->
  is_defined v = true ->
  parse_value (S fuel) (value_text v ++ rest) = Parsed v rest.
Proof.
  destruct v; try discriminate; intros _ _.
  - reflexivity.
  - unfold value_text; cbn [serialize].
    rewrite quote_json_string_append.
    cbn. now rewrite parse_string_quoted.
Qed.

Lemma parse_member (fuel : nat) (acc : list (string * JSValue))
  (k : string) (v : JSValue) (rest : string) :
  is_flat v = true ->
  is_defined v = true ->
  parse_members (S (S fuel)) acc
    (quote_json_string k ++ ":" ++ value_text v ++ rest)
  = match skip_ws rest with
    | EmptyString => Malformed ""
    | String d r3 as r2' =>
        if Ascii.eqb d ","
        then parse_members (S fuel) (set_prop acc k v) r3
        else if Ascii.eqb d "}" then Parsed (set_prop acc k v) r3
        else Malformed r2'
    end.
Proof.
  intros F D.
  rewrite quote_json_string_append.
  cbn [parse_members skip_ws].
  change (is_ws dquote) with false; cbn iota.
  change (Ascii.eqb dquote dquote) with true; cbn iota.
  rewrite parse_string_quoted.
  change (":" ++ value_text v ++ rest)
    with (String ":" (value_text v ++ rest)).
  cbn [skip_ws].
  change (is_ws ":") with false; cbn iota.
  change (Ascii.eqb ":" ":") with true; cbn iota.
  now rewrite (parse_value_flat v fuel rest F D).
Qed.

Lemma parse_members_flat (ds : list (string * JSValue)) :
  forall (k : string) (v : JSValue) (fuel : nat)
         (acc : list (string * JSValue)) (rest : string),
    printable (k, v) ->
    Forall printable ds ->
    (List.length ds <= fuel)%nat ->
    parse_members (S (S fuel)) acc
      (quote_json_string k ++ ":" ++ value_text v ++ tail_text ds
       ++ String "}" rest)
    = Parsed (set_props (set_prop acc k v) ds) rest.
Proof.
  induction ds as [|[k' v'] ds IH]; intros k v fuel acc rest [F D] A L;
    rewrite (parse_member _ _ _ _ _ F D).
  - reflexivity.
  - destruct fuel as [|fuel]; [simpl in L; lia|].
    cbn [tail_text]. rewrite !string_app_assoc.
    change ("," ++ quote_json_string k' ++ ":" ++ value_text v'
            ++ tail_text ds ++ String "}" rest)
      with (String "," (quote_json_string k' ++ ":" ++ value_text v'
                        ++ tail_text ds ++ String "}" rest)).
    cbn [skip_ws]. change (is_ws ",") with false; cbn iota.
    change (Ascii.eqb "," ",") with true; cbn iota.
    inversion A; subst.
    rewrite IH; [reflexivity | assumption | assumption | simpl in L; lia].
Qed.

Lemma parse_object_flat (ds : list (string * JSValue)) (rest : string) :
  Forall printable ds ->
  parse_value (S (S (List.length ds))) ("{" ++ members_text ds ++ "}" ++ rest)
  = Parsed (JObject (set_props [] ds)) rest.
Proof.
  intros A. destruct ds as [|[k v] ds].
  - reflexivity.
  - inversion A as [|? ? P A']; subst.
    cbn [members_text List.length].
    rewrite !string_app_assoc.
    rewrite quote_json_string_append.
    change ("{" ++ ?x) with (String "{" x).
    cbn [parse_value skip_ws].
    change (is_ws "{") with false; cbn iota.
    change (Ascii.eqb "{" "{") with true; cbn iota.
    cbn [skip_ws].
    change (is_ws dquote) with false; cbn iota.
    change (Ascii.eqb dquote "}") with false; cbn iota.
    rewrite <- quote_json_string_append.
    change ("}" ++ rest) with (String "}" rest).
    rewrite (parse_members_flat ds k v (List.length ds) [] rest P A'
               (le_n _)).
    reflexivity.
Qed.

Lemma serialize_defined (v : JSValue) :
  is_defined v = true -> serialize v = Some (value_text v).
Proof.
  intros D; unfold value_text.
  destruct (serialize v) eqn:E; [reflexivity|].
  destruct v as [| |[]|n| | |]; try discriminate.
  cbn [serialize] in E. destruct (number_class n); discriminate.
Qed.

Lemma serialize_undefined (v : JSValue) :
  is_defined v = false -> serialize v = None.
Proof. destruct v; try discriminate; reflexivity. Qed.

Lemma serialize_object (props : list (string * JSValue)) :
  serialize (JObject props)
  = Some ("{" ++ members_text (defined_props props) ++ "}").
Proof.
  cbn [serialize].
  match goal with
  | |- context [?f true props] => set (F := f)
  end.
  assert (T : forall l, F false l = tail_text (defined_props l)).
  { induction l as [|[k x] l IH]; [reflexivity|].
    unfold defined_props in *; cbn [filter snd].
    destruct (is_defined x) eqn:D.
    - cbn [tail_text]. rewrite <- IH.
      unfold F at 1. rewrite (serialize_defined _ D). reflexivity.
    - rewrite <- IH. unfold F at 1.
      rewrite (serialize_undefined _ D). reflexivity. }
  assert (M : forall l, F true l = members_text (defined_props l)).
  { induction l as [|[k x] l IH]; [reflexivity|].
    unfold defined_props in *; cbn [filter snd].
    destruct (is_defined x) eqn:D.
    - cbn [members_text]. rewrite <- T.
      unfold F at 1. rewrite (serialize_defined _ D). reflexivity.
    - rewrite <- IH. unfold F at 1.
      rewrite (serialize_undefined _ D). reflexivity. }
  now rewrite M.
Qed.

Lemma defined_props_printable (props : list (string * JSValue)) :
  forallb (fun kv => is_flat (snd kv)) props = true ->
  Forall printable (defined_props props).
Proof.
  induction props as [|[k v] props IH]; simpl; [constructor|].
  intros H; apply andb_true_iff in H as [F R].
  destruct (is_defined v) eqn:D; [|now apply IH].
  constructor; [split; assumption | now apply IH].
Qed.

(** Reading back the serialization of an object whose values are strings,
    [null] or [undefined] gives its defined properties. *)
Lemma parse_stringify_flat (props : list (string * JSValue)) :
  forallb (fun kv => is_flat (snd kv)) props = true ->
  exists text,
    JSON_stringify (JObject props) = Some text
    /\ JSON_parse text = Normal (JObject (set_props [] (defined_props props))).
Proof.
  intros H. unfold JSON_stringify. rewrite serialize_object.
  eexists; split; [reflexivity|].
  apply (JSON_parse_with_fuel
           (S (S (List.length (defined_props props))))).
  exact (parse_object_flat _ "" (defined_props_printable _ H)).
Qed.

(** X8.  The body each POST carries is JSON text that reads back as the
    object it was made from, less the properties left [undefined]: the
    texts of a request (quotes, backslashes and control characters
    included) reach the server unchanged, a [null] stays [null], and an
    omitted property is absent. *)
Theorem request_bodies_read_back (this : ChatClient)
  (uid : option string) (query : ChatQueryRequest)
  (feedback : FeedbackRequest) :
  (exists text,
      body (session_request this uid) = Some text
      /\ JSON_parse text
         = Normal (JObject match uid with
                           | Some u => [("user_identifier", JString u)]
                           | None => []
                           end))
  /\ (exists text,
         body (chat_request this query) = Some text
         /\ JSON_parse text
            = Normal (JObject (defined_props
                                 (object_props
                                    (ChatQueryRequest_value query)))))
  /\ (exists text,
         body (feedback_request this feedback) = Some text
         /\ JSON_parse text
            = Normal (JObject (defined_props
                                 (object_props
                                    (FeedbackRequest_value feedback))))).
Proof.
  split; [| split].
  - destruct (parse_stringify_flat
                [("user_identifier",
                  match uid with
                  | Some s => JString s
                  | None => JUndefined
                  end)]) as (text & B & P).
    { destruct uid; reflexivity. }
    exists text; split; [exact B|].
    rewrite P; destruct uid; reflexivity.
  - destruct (parse_stringify_flat
                (object_props (ChatQueryRequest_value query)))
      as (text & B & P).
    { destruct query as [q m [| |s] [| |i]]; reflexivity. }
    exists text; split; [exact B|].
    rewrite P; destruct query as [q m [| |s] [| |i]]; reflexivity.
  - destruct (parse_stringify_flat
                (object_props (FeedbackRequest_value feedback)))
      as (text & B & P).
    { destruct feedback as [r g [| |s]]; reflexivity. }
    exists text; split; [exact B|].
    rewrite P; destruct feedback as [r g [| |s]]; reflexivity.
Qed.

Example chat_body_escapes :
  option_map JSON_parse
    (body (chat_request local_client
             {| query_text := String dquote "\";
                mode := selection;
                selected_text := Given (String "010" "");
                session_id := Omitted |}))
  = Some (Normal
            (JObject [("query_text", JString (String dquote "\"));
                      ("mode", JString "selection");
                      ("selected_text", JString (String "010" ""))])).
Proof. reflexivity. Qed.
